(** * aws-rum-web: XMLHttpRequest tracing plugin and anonymous Cognito credentials

    A shallow embedding of
      - src/plugins/event-plugins/XhrPlugin.ts, and
      - src/dispatch/BasicAuthentication.ts,
    followed by the properties proved about them.

    Conventions.
      - A JavaScript property that may be missing ([trace?], [error?], ...) is
        an [option]; assigning [true] to a flag gives [Some true].
      - A non-null assertion [x!.f] on a missing [x] is a TypeError: functions
        that perform one return [option], and [None] is the thrown error.
      - Objects that the plugin mutates in place (the call-state record and
        its trace) are threaded explicitly; identity of an XMLHttpRequest is a
        [positive] key of the in-flight map.
      - Clock readings, random identifiers and the answers of remote services
        are inputs of the functions that consume them. *)

From Stdlib Require Import ZArith Ascii String List Bool Lia.
From stdpp Require Import base option gmap strings list pretty.

Local Open Scope Z_scope.

(* ===================================================================== *)
(** * Part I: XhrPlugin.ts *)
(* ===================================================================== *)

Module XhrPlugin.

(** ** The X-Ray trace document (events/xray-trace-event) *)

(** Modelled from the spec: the types of events/xray-trace-event, after the
    data model (Trace, Subsegment) and with the fields that the plugin reads
    and writes. Times are clock readings, carried through unchanged. *)

Record HttpRequest := {
  req_method : string;
  req_url : string;
  req_traced : bool
}.

(** The numbers that [parseInt] can return: NaN, an infinity, or a double
    whose value is an integer, given by its sign and its magnitude (the sign
    is kept apart, as -0 is a number of its own). *)
Inductive Number :=
  | NaN
  | Finite (negative : bool) (magnitude : N)
  | Infinite (negative : bool).

Definition isNaN (n : Number) : bool :=
  match n with NaN => true | _ => false end.

Record HttpResponse := {
  resp_status : Z;
  resp_content_length : option Number
}.

Record Http := {
  http_request : option HttpRequest;
  http_response : option HttpResponse
}.

Record Exception := {
  exc_type : string;
  exc_message : option string
}.

Record Cause := {
  exceptions : list Exception
}.

Record Subsegment := {
  seg_id : string;
  seg_name : string;
  seg_start_time : Z;
  seg_end_time : option Z;
  seg_namespace : string;
  seg_http : option Http;
  seg_error : option bool;
  seg_fault : option bool;
  seg_throttle : option bool;
  seg_cause : option Cause
}.

Record XRayTraceEvent := {
  name : string;
  id : string;
  start_time : Z;
  trace_id : string;
  end_time : option Z;
  error : option bool;
  fault : option bool;
  throttle : option bool;
  subsegments : list Subsegment
}.

(** Field assignments, one per assigned property. *)

Definition set_end_time (v : Z) (t : XRayTraceEvent) : XRayTraceEvent :=
  {| name := name t; id := id t; start_time := start_time t;
     trace_id := trace_id t; end_time := Some v; error := error t;
     fault := fault t; throttle := throttle t; subsegments := subsegments t |}.

Definition set_error (v : bool) (t : XRayTraceEvent) : XRayTraceEvent :=
  {| name := name t; id := id t; start_time := start_time t;
     trace_id := trace_id t; end_time := end_time t; error := Some v;
     fault := fault t; throttle := throttle t; subsegments := subsegments t |}.

Definition set_fault (v : bool) (t : XRayTraceEvent) : XRayTraceEvent :=
  {| name := name t; id := id t; start_time := start_time t;
     trace_id := trace_id t; end_time := end_time t; error := error t;
     fault := Some v; throttle := throttle t; subsegments := subsegments t |}.

Definition set_throttle (v : bool) (t : XRayTraceEvent) : XRayTraceEvent :=
  {| name := name t; id := id t; start_time := start_time t;
     trace_id := trace_id t; end_time := end_time t; error := error t;
     fault := fault t; throttle := Some v; subsegments := subsegments t |}.

Definition set_subsegments (l : list Subsegment) (t : XRayTraceEvent)
  : XRayTraceEvent :=
  {| name := name t; id := id t; start_time := start_time t;
     trace_id := trace_id t; end_time := end_time t; error := error t;
     fault := fault t; throttle := throttle t; subsegments := l |}.

Definition set_seg_end_time (v : Z) (s : Subsegment) : Subsegment :=
  {| seg_id := seg_id s; seg_name := seg_name s;
     seg_start_time := seg_start_time s; seg_end_time := Some v;
     seg_namespace := seg_namespace s; seg_http := seg_http s;
     seg_error := seg_error s; seg_fault := seg_fault s;
     seg_throttle := seg_throttle s; seg_cause := seg_cause s |}.

Definition set_seg_http (h : Http) (s : Subsegment) : Subsegment :=
  {| seg_id := seg_id s; seg_name := seg_name s;
     seg_start_time := seg_start_time s; seg_end_time := seg_end_time s;
     seg_namespace := seg_namespace s; seg_http := Some h;
     seg_error := seg_error s; seg_fault := seg_fault s;
     seg_throttle := seg_throttle s; seg_cause := seg_cause s |}.

Definition set_seg_error (v : bool) (s : Subsegment) : Subsegment :=
  {| seg_id := seg_id s; seg_name := seg_name s;
     seg_start_time := seg_start_time s; seg_end_time := seg_end_time s;
     seg_namespace := seg_namespace s; seg_http := seg_http s;
     seg_error := Some v; seg_fault := seg_fault s;
     seg_throttle := seg_throttle s; seg_cause := seg_cause s |}.

Definition set_seg_fault (v : bool) (s : Subsegment) : Subsegment :=
  {| seg_id := seg_id s; seg_name := seg_name s;
     seg_start_time := seg_start_time s; seg_end_time := seg_end_time s;
     seg_namespace := seg_namespace s; seg_http := seg_http s;
     seg_error := seg_error s; seg_fault := Some v;
     seg_throttle := seg_throttle s; seg_cause := seg_cause s |}.

Definition set_seg_throttle (v : bool) (s : Subsegment) : Subsegment :=
  {| seg_id := seg_id s; seg_name := seg_name s;
     seg_start_time := seg_start_time s; seg_end_time := seg_end_time s;
     seg_namespace := seg_namespace s; seg_http := seg_http s;
     seg_error := seg_error s; seg_fault := seg_fault s;
     seg_throttle := Some v; seg_cause := seg_cause s |}.

Definition set_seg_cause (c : Cause) (s : Subsegment) : Subsegment :=
  {| seg_id := seg_id s; seg_name := seg_name s;
     seg_start_time := seg_start_time s; seg_end_time := seg_end_time s;
     seg_namespace := seg_namespace s; seg_http := seg_http s;
     seg_error := seg_error s; seg_fault := seg_fault s;
     seg_throttle := seg_throttle s; seg_cause := Some c |}.

Definition set_http_response (r : HttpResponse) (h : Http) : Http :=
  {| http_request := http_request h; http_response := Some r |}.

Definition set_resp_content_length (n : Number) (r : HttpResponse)
  : HttpResponse :=
  {| resp_status := resp_status r; resp_content_length := Some n |}.

(** [trace.subsegments![0].f = v]: the write goes to the first subsegment,
    and throws when there is none. *)
Definition on_subsegment0 (f : Subsegment -> option Subsegment)
    (t : XRayTraceEvent) : option XRayTraceEvent :=
  match subsegments t with
  | [] => None
  | s :: rest => s' ← f s; Some (set_subsegments (s' :: rest) t)
  end.

(** [subsegments![0].http!.f = v]: throws when [http] is missing. *)
Definition on_http (f : Http -> option Http) (s : Subsegment)
  : option Subsegment :=
  h ← seg_http s; h' ← f h; Some (set_seg_http h' s).

(** [http!.response.f = v]: throws when [response] is missing. *)
Definition on_response (f : HttpResponse -> HttpResponse) (h : Http)
  : option Http :=
  r ← http_response h; Some (set_http_response (f r) h).

(** ** Language runtime: [parseInt(s, 10)], [String.prototype.includes],
       truthiness of a string *)

(** A string read from a response header is a byte string: one character
    per byte, with codes 0 to 255. *)

(** The white space that [parseInt] skips, as far as it occurs in a byte
    string: TAB, LF, VT, FF, CR, SP and the no-break space U+00A0. *)
Definition isWhiteSpace (c : ascii) : bool :=
  let n := Z.of_nat (nat_of_ascii c) in
  ((9 <=? n) && (n <=? 13)) || (n =? 32) || (n =? 160).

Fixpoint trimStart (s : string) : string :=
  match s with
  | String c s' => if isWhiteSpace c then trimStart s' else s
  | EmptyString => s
  end.

Definition digit (c : ascii) : option N :=
  let n := N.of_nat (nat_of_ascii c) in
  if ((48 <=? n) && (n <=? 57))%N then Some (n - 48)%N else None.

(** The longest prefix of decimal digits, as a number; [acc] is [None]
    until a first digit has been read. *)
Fixpoint digits (acc : option N) (s : string) : option N :=
  match s with
  | String c s' =>
      match digit c with
      | Some d => digits (Some (10 * default 0 acc + d)%N) s'
      | None => acc
      end
  | EmptyString => acc
  end.

(** The double nearest to an integer of magnitude [m], ties going to the
    even significand of 53 bits; from 2^1024 on, the result is infinite. *)
Definition toDouble (negative : bool) (m : N) : Number :=
  let b := N.log2 m in
  if (b <=? 52)%N then Finite negative m
  else
    let e := (b - 52)%N in
    let q := N.shiftr m e in
    let r := N.land m (N.ones e) in
    let half := N.shiftl 1 (e - 1) in
    let q' := if ((half <? r) || ((r =? half) && N.odd q))%N
              then (q + 1)%N else q in
    let v := N.shiftl q' e in
    if (N.shiftl 1 1024 <=? v)%N then Infinite negative
    else Finite negative v.

(** [parseInt(s, 10)]: leading white space, an optional sign, then the
    longest prefix of decimal digits; NaN when there is no digit. The value
    is the double nearest to the integer that the digits denote. *)
Definition parseInt (s : string) : Number :=
  let '(negative, rest) :=
    match trimStart s with
    | String "-"%char s' => (true, s')
    | String "+"%char s' => (false, s')
    | s' => (false, s')
    end in
  match digits None rest with
  | Some m => toDouble negative m
  | None => NaN
  end.

Fixpoint includes (s sub : string) : bool :=
  if String.prefix sub s then true
  else match s with
       | EmptyString => false
       | String _ s' => includes s' sub
       end.

(** A string in a condition: the empty string is falsy. *)
Definition truthy (s : string) : bool :=
  match s with EmptyString => false | String _ _ => true end.

(** [n.toString()] of an integer. *)
Definition toString (n : Z) : string := pretty n.

(** ** Imports from ../utils/http-utils, ../utils/constant,
       ../utils/js-error-utils and ../../errors/XhrError

    These modules lie outside the two verified files. *)

(** A regular expression, through its [test] method. *)
Definition RegExp := string -> bool.

(** Modelled from the spec: the type [HttpPluginConfig] of utils/http-utils,
    after the "configuration surface": allow and deny URL pattern lists, a
    header-injection pattern list or boolean, the logical service name, the
    stack-trace length cap and the "record all requests" boolean. *)
Record HttpPluginConfig := {
  logicalServiceName : string;
  urlsToInclude : list RegExp;
  urlsToExclude : list RegExp;
  stackTraceLength : Z;
  recordAllRequests : bool;
  cfg_addXRayTraceIdHeader : bool + list RegExp
}.

(** Modelled from the spec: [is429], [is4xx] and [is5xx] of utils/http-utils,
    after the Response Classifier: [status==429], [400<=status<500],
    [500<=status<600]. *)
Definition is429 (status : Z) : bool := status =? 429.
Definition is4xx (status : Z) : bool := (400 <=? status) && (status <? 500).
Definition is5xx (status : Z) : bool := (500 <=? status) && (status <? 600).

(** Modelled from the spec: [isUrlAllowed] of utils/http-utils, after the URL
    Filter: true iff the URL matches at least one include pattern and no
    exclude pattern. *)
Definition isUrlAllowed (url : string) (config : HttpPluginConfig) : bool :=
  existsb (fun r => r url) (urlsToInclude config)
  && negb (existsb (fun r => r url) (urlsToExclude config)).

(** Modelled from the spec: [isTraceIdHeaderEnabled] of utils/http-utils: the
    header-injection setting is a boolean, or a pattern list that must match
    the URL. *)
Definition isTraceIdHeaderEnabled (url : string)
    (addTraceIdHeader : bool + list RegExp) : bool :=
  match addTraceIdHeader with
  | inl b => b
  | inr matchers => existsb (fun r => r url) matchers
  end.

(** Modelled from the spec: the header names [X_AMZN_TRACE_ID] and
    [W3C_TRACEPARENT_HEADER_NAME] of utils/http-utils ("Trace-header wire
    names"). *)
Definition X_AMZN_TRACE_ID : string := "X-Amzn-Trace-Id".
Definition W3C_TRACEPARENT_HEADER_NAME : string := "traceparent".

(** The identifiers drawn from the random generator for one call. *)
Record Entropy := {
  legacy_trace_id : string;
  w3c_trace_id : string;
  segment_id : string;
  subsegment_id : string
}.

(** Modelled from the spec: [createXRayTraceEvent] of utils/http-utils, after
    [newTrace]: a fresh trace id (in the format of the mode) and root segment
    id, [start_time = startTime], no subsegments yet. *)
Definition createXRayTraceEvent (serviceName : string) (startTime : Z)
    (enableW3CTraceId : bool) (rnd : Entropy) : XRayTraceEvent :=
  {| name := serviceName;
     id := segment_id rnd;
     start_time := startTime;
     trace_id := if enableW3CTraceId then w3c_trace_id rnd
                 else legacy_trace_id rnd;
     end_time := None;
     error := None; fault := None; throttle := None;
     subsegments := [] |}.

(** Modelled from the spec: [createXRaySubsegment] of utils/http-utils, after
    [newSubsegment]: a fresh child id, [namespace = "remote"], the request
    information stored under [http]; response and cause are absent until
    completion. *)
Definition createXRaySubsegment (hostname : string) (startTime : Z)
    (http : Http) (rnd : Entropy) : Subsegment :=
  {| seg_id := subsegment_id rnd;
     seg_name := hostname;
     seg_start_time := startTime;
     seg_end_time := None;
     seg_namespace := "remote";
     seg_http := Some http;
     seg_error := None; seg_fault := None; seg_throttle := None;
     seg_cause := None |}.

(** The value of the [error] property handed to [errorEventToJsErrorEvent]:
    an [XhrError] object built from a message, or a plain string. *)
Inductive ErrorValue :=
  | XhrError (message : string)
  | ErrorString (s : string).

(** Modelled from the spec: the [error{type,message,stack?}] member of an HTTP
    event, the result type of [errorEventToJsErrorEvent]. *)
Record JSErrorEvent := {
  err_type : string;
  err_message : string;
  err_stack : option string
}.

(** The remaining imported functions are left open: the plugin only passes
    their results on, and is parametric in them. *)
Class Imports := {
  requestInfoToHostname : string -> string;
  getAmznTraceIdHeaderValue : string -> string -> string;
  getW3CTraceIdHeaderValue : string -> string -> string;
  errorEventToJsErrorEvent : ErrorValue -> Z -> JSErrorEvent
}.

(** ** Events handed to the sink (events/http-event) *)

(** Modelled from the spec: the type [HttpEvent] of events/http-event, after
    the data model (HTTP Event) and the object literals of the plugin. *)

Record HttpEventRequest := {
  ev_method : string;
  ev_url : string
}.

Record HttpEventResponse := {
  ev_status : Z;
  ev_statusText : string
}.

Record HttpEvent := {
  version : string;
  request : HttpEventRequest;
  response : option HttpEventResponse;
  ev_error : option JSErrorEvent;
  ev_trace_id : option string;
  ev_segment_id : option string
}.

Definition set_trace_ids (tid sid : string) (e : HttpEvent) : HttpEvent :=
  {| version := version e; request := request e; response := response e;
     ev_error := ev_error e; ev_trace_id := Some tid;
     ev_segment_id := Some sid |}.

(** One call [context.record(type, payload)]: the constructor is the event
    type ([XRAY_TRACE_EVENT_TYPE] or [HTTP_EVENT_TYPE]). *)
Inductive Recorded :=
  | TraceEvent (t : XRayTraceEvent)
  | HttpEventRec (e : HttpEvent).

(** ** The plugin and the world it acts on *)

(** [this.context.config], as far as the plugin reads it. *)
Record PluginContext := {
  enableXRay : bool;
  enableW3CTraceId : bool
}.

(** What [this.context.getSession()] returns (when it returns an object). *)
Record Session := {
  record : bool
}.

(** The immutable fields of the plugin object. *)
Record Plugin := {
  config : HttpPluginConfig;
  context : PluginContext;
  isSyntheticsUA : bool
}.

(** The constructor, given the merged configuration
    [{...defaultConfig, ...config}] and [navigator.userAgent]. *)
Definition newPlugin (merged : HttpPluginConfig) (ctx : PluginContext)
    (userAgent : string) : Plugin :=
  {| config := merged; context := ctx;
     isSyntheticsUA := includes userAgent "CloudWatchSynthetics" |}.

Record XhrDetails := {
  method : string;
  url : string;
  async : bool;
  trace : option XRayTraceEvent
}.

Definition set_trace (t : XRayTraceEvent) (d : XhrDetails) : XhrDetails :=
  {| method := method d; url := url d; async := async d; trace := Some t |}.

(** An XMLHttpRequest as a handler sees it: its identity, and the properties
    the handlers read ([getResponseHeader('Content-Length')] is a string or
    null). *)
Record XMLHttpRequest := {
  ref : positive;
  status : Z;
  statusText : string;
  contentLength : option string
}.

(** The four completion signals, with the names they are subscribed under. *)
Inductive Signal := Load | Error | Abort | Timeout.

Definition signalName (sig : Signal) : string :=
  match sig with
  | Load => "load" | Error => "error" | Abort => "abort"
  | Timeout => "timeout"
  end.

(** Everything the plugin reads and writes besides its immutable fields:
    the in-flight map, the calls made to [context.record] (oldest first), the
    calls made to [setRequestHeader] (oldest first) and the subscriptions made
    with [addEventListener] (a set: subscribing the same handler under the
    same name twice has no effect). *)
Record World := {
  xhrMap : gmap positive XhrDetails;
  recorded : list Recorded;
  requestHeaders : list (positive * (string * string));
  listeners : gset (positive * string)
}.

Definition emptyWorld : World :=
  {| xhrMap := ∅; recorded := []; requestHeaders := []; listeners := ∅ |}.

Definition set_xhrMap (m : gmap positive XhrDetails) (w : World) : World :=
  {| xhrMap := m; recorded := recorded w;
     requestHeaders := requestHeaders w; listeners := listeners w |}.

(** [this.context.record(type, payload)] *)
Definition contextRecord (r : Recorded) (w : World) : World :=
  {| xhrMap := xhrMap w; recorded := recorded w ++ [r];
     requestHeaders := requestHeaders w; listeners := listeners w |}.

(** [xhr.setRequestHeader(name, value)] *)
Definition setRequestHeader (x : positive) (header value : string)
    (w : World) : World :=
  {| xhrMap := xhrMap w; recorded := recorded w;
     requestHeaders := requestHeaders w ++ [(x, (header, value))];
     listeners := listeners w |}.

(** [xhr.addEventListener(name, handler)] *)
Definition addEventListener (x : positive) (sig : Signal) (w : World)
  : World :=
  {| xhrMap := xhrMap w; recorded := recorded w;
     requestHeaders := requestHeaders w;
     listeners := {[ (x, signalName sig) ]} ∪ listeners w |}.

Section Handlers.

Context `{Imports}.

(** The plugin object, and the result of [this.context.getSession()] at the
    time of the call. *)
Variable (self : Plugin).

Definition addXRayTraceIdHeader (url : string) : bool :=
  isTraceIdHeaderEnabled url (cfg_addXRayTraceIdHeader (config self)).

Definition isTracingEnabled : bool :=
  enableXRay (context self).

(** [this.context.getSession()?.record || false] *)
Definition isSessionRecorded (session : option Session) : bool :=
  match session with
  | Some s => record s || false
  | None => false
  end.

Definition recordTraceEvent (session : option Session) (t : XRayTraceEvent)
    (w : World) : World :=
  if negb (isSyntheticsUA self) && isTracingEnabled
     && isSessionRecorded session
  then contextRecord (TraceEvent t) w
  else w.

Definition statusOk (status : Z) : bool :=
  (200 <=? status) && (status <? 300).

(** The two assignments guarded by [isTracingEnabled()]; they dereference
    [xhrDetails.trace!] and [subsegments![0]]. *)
Definition attachTraceIds (xhrDetails : XhrDetails) (httpEvent : HttpEvent)
  : option HttpEvent :=
  if isTracingEnabled then
    t ← trace xhrDetails;
    s ← head (subsegments t);
    Some (set_trace_ids (trace_id t) (seg_id s) httpEvent)
  else Some httpEvent.

Definition recordHttpEventWithResponse (xhrDetails : XhrDetails)
    (xhr : XMLHttpRequest) (w : World) : option World :=
  let w := set_xhrMap (delete (ref xhr) (xhrMap w)) w in
  let httpEvent :=
    {| version := "1.0.0";
       request := {| ev_method := method xhrDetails;
                     ev_url := url xhrDetails |};
       response := Some {| ev_status := status xhr;
                           ev_statusText := statusText xhr |};
       ev_error := None; ev_trace_id := None; ev_segment_id := None |} in
  httpEvent ← attachTraceIds xhrDetails httpEvent;
  if recordAllRequests (config self) || negb (statusOk (status xhr))
  then Some (contextRecord (HttpEventRec httpEvent) w)
  else Some w.

Definition recordHttpEventWithError (xhrDetails : XhrDetails)
    (xhr : XMLHttpRequest) (error : ErrorValue) (w : World) : option World :=
  let w := set_xhrMap (delete (ref xhr) (xhrMap w)) w in
  let httpEvent :=
    {| version := "1.0.0";
       request := {| ev_method := method xhrDetails;
                     ev_url := url xhrDetails |};
       response := None;
       ev_error := Some (errorEventToJsErrorEvent error
                           (stackTraceLength (config self)));
       ev_trace_id := None; ev_segment_id := None |} in
  httpEvent ← attachTraceIds xhrDetails httpEvent;
  Some (contextRecord (HttpEventRec httpEvent) w).

(** The writes of [handleXhrLoadEvent] to [xhrDetails.trace], in order. *)
Definition loadTrace (xhr : XMLHttpRequest) (endTime : Z)
    (t : XRayTraceEvent) : option XRayTraceEvent :=
  let t := set_end_time endTime t in
  t ← on_subsegment0 (fun s => Some (set_seg_end_time endTime s)) t;
  t ← on_subsegment0 (on_http (fun h => Some (set_http_response
         {| resp_status := status xhr; resp_content_length := None |} h))) t;
  t ← (if is429 (status xhr) then
         t ← on_subsegment0 (fun s => Some (set_seg_throttle true s)) t;
         Some (set_throttle true t)
       else if is4xx (status xhr) then
         t ← on_subsegment0 (fun s => Some (set_seg_error true s)) t;
         Some (set_error true t)
       else if is5xx (status xhr) then
         t ← on_subsegment0 (fun s => Some (set_seg_fault true s)) t;
         Some (set_fault true t)
       else Some t);
  let cl := match contentLength xhr with
            | Some clStr => if truthy clStr then parseInt clStr else NaN
            | None => NaN
            end in
  if negb (isNaN cl) then
    on_subsegment0 (on_http (on_response (set_resp_content_length cl))) t
  else Some t.

(** The record is the object held by the map, so the writes to its trace
    are seen by [recordHttpEventWithResponse], which also removes the record
    from the map before the handler returns. *)
Definition handleXhrLoadEvent (session : option Session) (endTime : Z)
    (xhr : XMLHttpRequest) (w : World) : option World :=
  match xhrMap w !! ref xhr with
  | Some xhrDetails =>
      t ← trace xhrDetails;
      t ← loadTrace xhr endTime t;
      let xhrDetails := set_trace t xhrDetails in
      let w := recordTraceEvent session t w in
      recordHttpEventWithResponse xhrDetails xhr w
  | None => Some w
  end.

Definition errorMessage (xhr : XMLHttpRequest) : string :=
  if truthy (statusText xhr)
  then toString (status xhr) +:+ ": " +:+ statusText xhr
  else toString (status xhr).

(** The writes of [handleXhrErrorEvent] to [xhrDetails.trace], in order. *)
Definition errorTrace (xhr : XMLHttpRequest) (endTime : Z)
    (t : XRayTraceEvent) : option XRayTraceEvent :=
  let errorName : string := "XMLHttpRequest error" in
  let t := set_fault true t in
  let t := set_end_time endTime t in
  t ← on_subsegment0 (fun s => Some (set_seg_end_time endTime s)) t;
  t ← on_subsegment0 (fun s => Some (set_seg_fault true s)) t;
  on_subsegment0 (fun s => Some (set_seg_cause
      {| exceptions := [ {| exc_type := errorName;
                            exc_message := Some (errorMessage xhr) |} ] |}
      s)) t.

Definition handleXhrErrorEvent (session : option Session) (endTime : Z)
    (xhr : XMLHttpRequest) (w : World) : option World :=
  match xhrMap w !! ref xhr with
  | Some xhrDetails =>
      t ← trace xhrDetails;
      t ← errorTrace xhr endTime t;
      let xhrDetails := set_trace t xhrDetails in
      let w := recordTraceEvent session t w in
      recordHttpEventWithError xhrDetails xhr (XhrError (errorMessage xhr)) w
  | None => Some w
  end.

(** The writes of [handleXhrDetailsOnError] to [xhrDetails.trace]. *)
Definition detailsOnErrorTrace (errorName : string) (endTime : Z)
    (t : XRayTraceEvent) : option XRayTraceEvent :=
  let t := set_end_time endTime t in
  t ← on_subsegment0 (fun s => Some (set_seg_end_time endTime s)) t;
  t ← on_subsegment0 (fun s => Some (set_seg_error true s)) t;
  on_subsegment0 (fun s => Some (set_seg_cause
      {| exceptions := [ {| exc_type := errorName;
                            exc_message := None |} ] |} s)) t.

Definition handleXhrDetailsOnError (session : option Session) (endTime : Z)
    (xhrDetails : option XhrDetails) (xhr : XMLHttpRequest)
    (errorName : string) (w : World) : option World :=
  match xhrDetails with
  | Some xhrDetails =>
      t ← trace xhrDetails;
      t ← detailsOnErrorTrace errorName endTime t;
      let xhrDetails := set_trace t xhrDetails in
      let w := recordTraceEvent session t w in
      recordHttpEventWithError xhrDetails xhr (ErrorString errorName) w
  | None => Some w
  end.

Definition handleXhrAbortEvent (session : option Session) (endTime : Z)
    (xhr : XMLHttpRequest) (w : World) : option World :=
  match xhrMap w !! ref xhr with
  | Some xhrDetails =>
      handleXhrDetailsOnError session endTime (Some xhrDetails) xhr
        "XMLHttpRequest abort" w
  | None => Some w
  end.

Definition handleXhrTimeoutEvent (session : option Session) (endTime : Z)
    (xhr : XMLHttpRequest) (w : World) : option World :=
  let xhrDetails := xhrMap w !! ref xhr in
  let errorName : string := "XMLHttpRequest timeout" in
  handleXhrDetailsOnError session endTime xhrDetails xhr errorName w.

Definition initializeTrace (startTime : Z) (rnd : Entropy)
    (xhrDetails : XhrDetails) : XhrDetails :=
  let t := createXRayTraceEvent (logicalServiceName (config self)) startTime
             (enableW3CTraceId (context self)) rnd in
  let t := set_subsegments
             (subsegments t ++
              [createXRaySubsegment (requestInfoToHostname (url xhrDetails))
                 startTime
                 {| http_request :=
                      Some {| req_method := method xhrDetails;
                              req_url := url xhrDetails;
                              req_traced := true |};
                    http_response := None |}
                 rnd]) t in
  set_trace t xhrDetails.

(** The wrapper installed around [XMLHttpRequest.prototype.send], up to the
    call of the original [send]. [this] is the request being sent; the clock
    reading and the random identifiers are those consumed by
    [initializeTrace]. *)
Definition sendWrapper (session : option Session) (startTime : Z)
    (rnd : Entropy) (this : positive) (w : World) : option World :=
  match xhrMap w !! this with
  | Some xhrDetails =>
      let w := addEventListener this Load w in
      let w := addEventListener this Error w in
      let w := addEventListener this Abort w in
      let w := addEventListener this Timeout w in
      let xhrDetails := initializeTrace startTime rnd xhrDetails in
      let w := set_xhrMap (<[this := xhrDetails]> (xhrMap w)) w in
      if negb (isSyntheticsUA self) && isTracingEnabled
         && addXRayTraceIdHeader (url xhrDetails)
         && isSessionRecorded session
      then
        t ← trace xhrDetails;
        s ← head (subsegments t);
        if enableW3CTraceId (context self) then
          Some (setRequestHeader this W3C_TRACEPARENT_HEADER_NAME
                  (getW3CTraceIdHeaderValue (trace_id t) (seg_id s)) w)
        else
          Some (setRequestHeader this X_AMZN_TRACE_ID
                  (getAmznTraceIdHeaderValue (trace_id t) (seg_id s)) w)
      else Some w
  | None => Some w
  end.

(** The wrapper installed around [XMLHttpRequest.prototype.open], up to the
    call of the original [open]. *)
Definition openWrapper (this : positive) (method' url' : string)
    (async' : bool) (w : World) : World :=
  if isUrlAllowed url' (config self) then
    set_xhrMap (<[this := {| method := method'; url := url';
                             async := async'; trace := None |}]> (xhrMap w)) w
  else w.

(** ** Runs of the plugin *)

Definition handle (sig : Signal)
  : option Session -> Z -> XMLHttpRequest -> World -> option World :=
  match sig with
  | Load => handleXhrLoadEvent
  | Error => handleXhrErrorEvent
  | Abort => handleXhrAbortEvent
  | Timeout => handleXhrTimeoutEvent
  end.

(** The browser delivers a signal to the handler subscribed under its name,
    if there is one. *)
Definition dispatch (sig : Signal) (session : option Session) (endTime : Z)
    (xhr : XMLHttpRequest) (w : World) : option World :=
  if decide ((ref xhr, signalName sig) ∈ listeners w)
  then handle sig session endTime xhr w
  else Some w.

(** What the page and the browser can do to the plugin. *)
Inductive Action :=
  | Open (this : positive) (method' url' : string) (async' : bool)
  | Send (this : positive) (session : option Session) (startTime : Z)
         (rnd : Entropy)
  | Fire (sig : Signal) (xhr : XMLHttpRequest) (session : option Session)
         (endTime : Z).

Definition perform (a : Action) (w : World) : option World :=
  match a with
  | Open this m u a => Some (openWrapper this m u a w)
  | Send this session startTime rnd =>
      sendWrapper session startTime rnd this w
  | Fire sig xhr session endTime => dispatch sig session endTime xhr w
  end.

(** The worlds that a run of actions leads to from the empty world. A
    handler that throws does so at its first write, on a record that has no
    trace yet, and leaves the world as it was: such a step adds nothing to
    the set of reachable worlds. *)
Inductive reachable : World -> Prop :=
  | reachable_init : reachable emptyWorld
  | reachable_step a w w' :
      reachable w -> perform a w = Some w' -> reachable w'.

Fixpoint run (l : list Action) (w : World) : option World :=
  match l with
  | [] => Some w
  | a :: l' => w' ← perform a w; run l' w'
  end.

(** A run in which handlers may throw. The plugin does not catch what a
    handler throws: the browser reports the exception and goes on with the
    next event. In the runs from the empty world a handler only throws on a
    record that has no trace, at its first write to the missing trace
    (lemma [throw_only_unsent]), so the world is then as it was. *)
Definition step (a : Action) (w : World) : World :=
  default w (perform a w).

Fixpoint exec (l : list Action) (w : World) : World :=
  match l with
  | [] => w
  | a :: l' => exec l' (step a w)
  end.

End Handlers.

(** ** Reading the log of the sink *)

Definition traceEvents (l : list Recorded) : list XRayTraceEvent :=
  omap (fun r => match r with TraceEvent t => Some t | _ => None end) l.

Definition httpEvents (l : list Recorded) : list HttpEvent :=
  omap (fun r => match r with HttpEventRec e => Some e | _ => None end) l.

(** ** Vocabulary of the properties *)

(** A subsegment as [createXRaySubsegment] leaves it: request information
    but no response, no cause, no flag. *)
Definition untouchedSubsegment (s : Subsegment) : Prop :=
  (exists h, seg_http s = Some h /\ http_response h = None)
  /\ seg_cause s = None
  /\ seg_error s = None /\ seg_fault s = None /\ seg_throttle s = None.

(** A trace as [initializeTrace] leaves it: no flag on the root, and exactly
    one subsegment, untouched. *)
Definition asSent (t : XRayTraceEvent) : Prop :=
  error t = None /\ fault t = None /\ throttle t = None
  /\ exists s, subsegments t = [s] /\ untouchedSubsegment s.

Definition hasResponse (s : Subsegment) : bool :=
  match seg_http s with
  | Some h => bool_decide (is_Some (http_response h))
  | None => false
  end.

Definition hasCause (s : Subsegment) : bool :=
  bool_decide (is_Some (seg_cause s)).

(** The three flags of a trace root, and of a subsegment, in the order
    throttle, error, fault. *)
Definition rootFlags (t : XRayTraceEvent)
  : option bool * option bool * option bool :=
  (throttle t, error t, fault t).

Definition subsegmentFlags (s : Subsegment)
  : option bool * option bool * option bool :=
  (seg_throttle s, seg_error s, seg_fault s).

(** A trace with a single subsegment that carries a response or a cause,
    and not both. *)
Definition exclusiveOutcome (t : XRayTraceEvent) : Prop :=
  exists s, subsegments t = [s] /\ hasResponse s = negb (hasCause s).

(** The invariant of the runs: a record that holds a trace holds it as it
    was sent, and every trace in the log of the sink has a response or a
    cause, and not both. *)
Definition invariant (w : World) : Prop :=
  (forall x d t, xhrMap w !! x = Some d -> trace d = Some t -> asSent t)
  /\ (forall t, t ∈ traceEvents (recorded w) -> exclusiveOutcome t).

Definition isLoad (sig : Signal) : bool :=
  match sig with Load => true | _ => false end.

(** The name that the abort and timeout handlers pass to
    [handleXhrDetailsOnError]. *)
Definition errorNameOf (sig : Signal) : string :=
  match sig with
  | Abort => "XMLHttpRequest abort"
  | _ => "XMLHttpRequest timeout"
  end.

Section Outcome.

Context `{Imports}.

(** The writes that the handler of a signal makes to the trace. *)
Definition outcomeTrace (sig : Signal) (xhr : XMLHttpRequest) (endTime : Z)
    (t : XRayTraceEvent) : option XRayTraceEvent :=
  match sig with
  | Load => loadTrace xhr endTime t
  | Error => errorTrace xhr endTime t
  | Abort | Timeout => detailsOnErrorTrace (errorNameOf sig) endTime t
  end.

(** The three conditions under which [recordTraceEvent] records. *)
Definition traceGate (self : Plugin) (session : option Session) : Prop :=
  isSyntheticsUA self = false
  /\ enableXRay (context self) = true
  /\ exists s, session = Some s /\ record s = true.

(** The four conditions under which [sendWrapper] sets a header. *)
Definition headerGate (self : Plugin) (session : option Session)
    (url : string) : Prop :=
  isSyntheticsUA self = false
  /\ enableXRay (context self) = true
  /\ isTraceIdHeaderEnabled url (cfg_addXRayTraceIdHeader (config self)) = true
  /\ exists s, session = Some s /\ record s = true.

(** The condition of [recordTraceEvent], and the condition under which the
    handler of a signal records its HTTP event. *)
Definition tracesRecorded (self : Plugin) (session : option Session) : bool :=
  negb (isSyntheticsUA self) && isTracingEnabled self
  && isSessionRecorded session.

Definition httpRecorded (self : Plugin) (sig : Signal) (xhr : XMLHttpRequest)
  : bool :=
  match sig with
  | Load => recordAllRequests (config self) || negb (statusOk (status xhr))
  | _ => true
  end.

(** The first completion signal of a sent call, as the specification words
    it: the record is consumed, later signals find nothing, and exactly one
    HTTP event and at most one trace event are recorded. *)
Definition oneHttpEventPerCompletion (self : Plugin) : Prop :=
  forall sig session endTime xhr w d t,
    xhrMap w !! ref xhr = Some d -> trace d = Some t -> asSent t ->
    exists w' evs,
      handle self sig session endTime xhr w = Some w'
      /\ xhrMap w' !! ref xhr = None
      /\ recorded w' = recorded w ++ evs
      /\ length (httpEvents evs) = 1%nat
      /\ (length (traceEvents evs) <= 1)%nat
      /\ forall sig' session' endTime' xhr',
           ref xhr' = ref xhr ->
           handle self sig' session' endTime' xhr' w' = Some w'.

End Outcome.

(** ** Vocabulary of the properties of runs *)

Definition isSend (a : Action) : bool :=
  match a with Send _ _ _ _ => true | _ => false end.

(** The number of calls of [send] in a run. *)
Definition sends (l : list Action) : nat :=
  length (List.filter isSend l).

(** The records that hold a trace: the calls that were sent and have not
    completed. *)
Definition inFlight (m : gmap positive XhrDetails)
  : gmap positive XhrDetails :=
  filter (fun kd => is_Some (trace kd.2)) m.

Section Headers.

Context `{Imports}.

(** The condition under which [sendWrapper] sets a header, and the header it
    sets for the identifiers drawn at that [send]. *)
Definition headerSet (self : Plugin) (session : option Session)
    (url : string) : bool :=
  negb (isSyntheticsUA self) && isTracingEnabled self
  && addXRayTraceIdHeader self url && isSessionRecorded session.

Definition traceHeader (self : Plugin) (rnd : Entropy) : string * string :=
  if enableW3CTraceId (context self) then
    (W3C_TRACEPARENT_HEADER_NAME,
     getW3CTraceIdHeaderValue (w3c_trace_id rnd) (subsegment_id rnd))
  else
    (X_AMZN_TRACE_ID,
     getAmznTraceIdHeaderValue (legacy_trace_id rnd) (subsegment_id rnd)).

(** The HTTP event that the handler of a signal builds for a record, given
    the identifiers of its trace. *)
Definition httpEventOf (self : Plugin) (sig : Signal) (xhr : XMLHttpRequest)
    (d : XhrDetails) (traceId segmentId : string) : HttpEvent :=
  {| version := "1.0.0";
     request := {| ev_method := method d; ev_url := url d |};
     response :=
       if isLoad sig
       then Some {| ev_status := status xhr;
                    ev_statusText := statusText xhr |}
       else None;
     ev_error :=
       match sig with
       | Load => None
       | Error =>
           Some (errorEventToJsErrorEvent (XhrError (errorMessage xhr))
                   (stackTraceLength (config self)))
       | Abort | Timeout =>
           Some (errorEventToJsErrorEvent (ErrorString (errorNameOf sig))
                   (stackTraceLength (config self)))
       end;
     ev_trace_id := if enableXRay (context self) then Some traceId else None;
     ev_segment_id :=
       if enableXRay (context self) then Some segmentId else None |}.

End Headers.

(** A trace as [initializeTrace] builds it for a record: as sent, and with
    the method and the URL of the record as its request, marked traced. *)
Definition tracedAs (d : XhrDetails) (t : XRayTraceEvent) : Prop :=
  asSent t
  /\ exists s h,
       subsegments t = [s] /\ seg_http s = Some h
       /\ http_request h =
            Some {| req_method := method d; req_url := url d;
                    req_traced := true |}.

(** The four names under which [sendWrapper] subscribes. *)
Definition subscribed (x : positive) (ls : gset (positive * string)) : Prop :=
  forall sig, (x, signalName sig) ∈ ls.

(** What holds of the records in every run: the URL of a record passed the
    filter, and a record that holds a trace holds it as [initializeTrace]
    built it for that record, with the four handlers subscribed. *)
Definition recordsTracked (self : Plugin) (w : World) : Prop :=
  forall x d,
    xhrMap w !! x = Some d ->
    isUrlAllowed (url d) (config self) = true
    /\ forall t, trace d = Some t ->
         tracedAs d t /\ subscribed x (listeners w).

(** The request information of a trace, if it has a first subsegment that
    carries one. *)
Definition tracedRequest (t : XRayTraceEvent) : option HttpRequest :=
  s ← head (subsegments t); h ← seg_http s; http_request h.

End XhrPlugin.

(* ===================================================================== *)
(** * Part II: BasicAuthentication.ts *)
(* ===================================================================== *)

Module BasicAuthentication.

(** ** Data *)

(** [AwsCredentialIdentity] of @aws-sdk/types. *)
Record AwsCredentialIdentity := {
  accessKeyId : string;
  secretAccessKey : string;
  sessionToken : option string;
  expiration : option Z
}.

(** The fields of [Config] the provider reads. *)
Record Config := {
  identityPoolId : string;
  guestRoleArn : string
}.

Record GetIdRequest := {
  IdentityPoolId : string
}.

Record GetIdResponse := {
  IdentityId : string
}.

Record GetOpenIdTokenResponse := {
  Token : string
}.

Record AssumeRoleWithWebIdentityRequest := {
  RoleArn : string;
  RoleSessionName : string;
  WebIdentityToken : string
}.

(** A thrown value, or the reason of a rejected promise. *)
Definition JsError := string.

(** How a call that may throw, or an awaited promise, ends. *)
Inductive Outcome (A : Type) :=
  | Resolved (a : A)
  | Rejected (e : JsError).

Arguments Resolved {A} a.
Arguments Rejected {A} e.

(** The interactions of the provider with the outside, in order. *)
Inductive Call :=
  | CallGetId (request : GetIdRequest)
  | CallGetOpenIdToken (request : GetIdResponse)
  | CallAssumeRoleWithWebIdentity (request : AssumeRoleWithWebIdentityRequest)
  | CallSetItem (key value : string).

(** The mutable state: [this.credentials], the content of [localStorage],
    and the interactions so far. *)
Record State := {
  credentials : option AwsCredentialIdentity;
  localStorage : gmap string string;
  log : list Call
}.

(** The outside world. The answer to a call may depend on when it is made:
    each answer is a function of the number of interactions that came before
    it. [setItemError] is the error [localStorage.setItem] throws, if any
    (storage full or unavailable); [stringify] is [JSON.stringify]. *)
Class Services := {
  getIdReply : nat -> GetIdRequest -> Outcome GetIdResponse;
  getOpenIdTokenReply : nat -> GetIdResponse -> Outcome GetOpenIdTokenResponse;
  assumeRoleWithWebIdentityReply :
    nat -> AssumeRoleWithWebIdentityRequest -> Outcome AwsCredentialIdentity;
  setItemError : nat -> string -> string -> option JsError;
  stringify : AwsCredentialIdentity -> string
}.

(** ** Computations that read and write the state and may throw *)

Definition M (A : Type) : Type := State -> Outcome A * State.

#[export] Instance M_ret : MRet M := fun A a s => (Resolved a, s).

#[export] Instance M_bind : MBind M := fun A B f m s =>
  match m s with
  | (Resolved a, s') => f a s'
  | (Rejected e, s') => (Rejected e, s')
  end.

Definition throw {A} (e : JsError) : M A := fun s => (Rejected e, s).

(** [try { body } catch (e) { handler }] *)
Definition tryCatch {A} (body : M A) (handler : JsError -> M A) : M A :=
  fun s =>
    match body s with
    | (Resolved a, s') => (Resolved a, s')
    | (Rejected e, s') => handler e s'
    end.

Definition logCall (c : Call) (s : State) : State :=
  {| credentials := credentials s; localStorage := localStorage s;
     log := log s ++ [c] |}.

Section Provider.

Context `{Services}.

(** The fields [config] and [credentialStorageKey] of the object. *)
Variable (config : Config) (credentialStorageKey : string).

(** [await this.cognitoIdentityClient.getId(request)] *)
Definition getId (request : GetIdRequest) : M GetIdResponse :=
  fun s => (getIdReply (length (log s)) request, logCall (CallGetId request) s).

(** [await this.cognitoIdentityClient.getOpenIdToken(request)] *)
Definition getOpenIdToken (request : GetIdResponse)
  : M GetOpenIdTokenResponse :=
  fun s => (getOpenIdTokenReply (length (log s)) request,
            logCall (CallGetOpenIdToken request) s).

(** [await this.stsClient.assumeRoleWithWebIdentity(request)] *)
Definition assumeRoleWithWebIdentity
    (request : AssumeRoleWithWebIdentityRequest) : M AwsCredentialIdentity :=
  fun s => (assumeRoleWithWebIdentityReply (length (log s)) request,
            logCall (CallAssumeRoleWithWebIdentity request) s).

(** [this.credentials = c] *)
Definition setCredentials (c : AwsCredentialIdentity) : M unit :=
  fun s => (Resolved tt,
            {| credentials := Some c; localStorage := localStorage s;
               log := log s |}).

(** [localStorage.setItem(key, value)] *)
Definition setItem (key value : string) : M unit :=
  fun s =>
    match setItemError (length (log s)) key value with
    | Some e => (Rejected e, logCall (CallSetItem key value) s)
    | None =>
        (Resolved tt,
         {| credentials := credentials s;
            localStorage := <[key := value]> (localStorage s);
            log := log s ++ [CallSetItem key value] |})
    end.

(** The requests of the first and of the third step. *)
Definition getIdRequest : GetIdRequest :=
  {| IdentityPoolId := identityPoolId config |}.

Definition assumeRoleRequest (tok : GetOpenIdTokenResponse)
  : AssumeRoleWithWebIdentityRequest :=
  {| RoleArn := guestRoleArn config;
     RoleSessionName := "cwr";
     WebIdentityToken := Token tok |}.

(** The body of the outer [try]: one run of the three-step exchange. *)
Definition exchange : M AwsCredentialIdentity :=
  getIdResponse ← getId getIdRequest;
  getOpenIdTokenResponse ← getOpenIdToken getIdResponse;
  credentials ← assumeRoleWithWebIdentity
    (assumeRoleRequest getOpenIdTokenResponse);
  setCredentials credentials;;
  tryCatch
    (setItem credentialStorageKey (stringify credentials))
    (fun e => mret tt (* Ignore *));;
  mret credentials.

(** The [while (true)] loop, by recursion on the counter [retries]: a pass
    either returns, throws, or decrements the counter and goes round again. *)
Fixpoint loop (retries : nat) : M AwsCredentialIdentity :=
  tryCatch exchange
    (fun e =>
       match retries with
       | S retries' => loop retries'
       | O => throw e
       end).

Definition AnonymousCognitoCredentialsProvider : M AwsCredentialIdentity :=
  let retries := 1%nat in
  loop retries.

(** What the services answer to an exchange that starts after [n]
    interactions. It is rejected with [e] when the first of the three steps
    to be rejected is rejected with [e]; [calls] are the calls made up to and
    including that step. *)
Definition exchangeRejected (n : nat) (e : JsError) (calls : list Call)
  : Prop :=
  (getIdReply n getIdRequest = Rejected e
   /\ calls = [CallGetId getIdRequest])
  \/ (exists r,
        getIdReply n getIdRequest = Resolved r
        /\ getOpenIdTokenReply (S n) r = Rejected e
        /\ calls = [CallGetId getIdRequest; CallGetOpenIdToken r])
  \/ (exists r tok,
        getIdReply n getIdRequest = Resolved r
        /\ getOpenIdTokenReply (S n) r = Resolved tok
        /\ assumeRoleWithWebIdentityReply (S (S n)) (assumeRoleRequest tok)
           = Rejected e
        /\ calls = [CallGetId getIdRequest; CallGetOpenIdToken r;
                    CallAssumeRoleWithWebIdentity (assumeRoleRequest tok)]).

(** It resolves with [c] when the three steps resolve in turn, each fed
    with the answer to the one before, the last with [c]; [calls] are the
    three calls and the write to local storage that follows. *)
Definition exchangeResolved (n : nat) (c : AwsCredentialIdentity)
    (calls : list Call) : Prop :=
  exists r tok,
    getIdReply n getIdRequest = Resolved r
    /\ getOpenIdTokenReply (S n) r = Resolved tok
    /\ assumeRoleWithWebIdentityReply (S (S n)) (assumeRoleRequest tok)
       = Resolved c
    /\ calls = [CallGetId getIdRequest; CallGetOpenIdToken r;
                CallAssumeRoleWithWebIdentity (assumeRoleRequest tok);
                CallSetItem credentialStorageKey (stringify c)].

End Provider.

(** The number of exchanges started: each one begins with a call of
    [getId]. *)
Definition isGetId (c : Call) : bool :=
  match c with CallGetId _ => true | _ => false end.

Definition attempts (l : list Call) : nat :=
  length (List.filter isGetId l).

(** The writes to local storage that were tried, as key and value. *)
Definition setItems (l : list Call) : list (string * string) :=
  omap (fun c => match c with
                 | CallSetItem k v => Some (k, v)
                 | _ => None
                 end) l.

(** The calls of one exchange, in the order of the protocol, up to the
    step at which it stopped. *)
Definition isExchange (l : list Call) : bool :=
  match l with
  | [CallGetId _]
  | [CallGetId _; CallGetOpenIdToken _]
  | [CallGetId _; CallGetOpenIdToken _; CallAssumeRoleWithWebIdentity _]
  | [CallGetId _; CallGetOpenIdToken _; CallAssumeRoleWithWebIdentity _;
     CallSetItem _ _] => true
  | _ => false
  end.

(** ** The constructor *)

(** [s.split(':')[0]]: the part of [s] before its first colon. *)
Fixpoint beforeColon (s : string) : string :=
  match s with
  | EmptyString => EmptyString
  | String c s' =>
      if Ascii.eqb c ":" then EmptyString else String c (beforeColon s')
  end.

(** The region that the constructor hands to the [StsClient]:
    [config.identityPoolId!.split(':')[0]]. The pool id is optional in the
    configuration; [None] is the TypeError of the call on a missing one. *)
Definition stsRegion (identityPoolId : option string) : option string :=
  beforeColon <$> identityPoolId.

End BasicAuthentication.

(* ===================================================================== *)
(** * Concrete scenarios *)
(* ===================================================================== *)

Module Scenario.

Import XhrPlugin.

(** Sample imports: the two header encodings after the formats of the
    specification, the host name taken to be the URL itself. *)
#[export] Instance sampleImports : Imports := {|
  requestInfoToHostname := fun u => u;
  getAmznTraceIdHeaderValue := fun traceId segmentId =>
    "Root=" +:+ traceId +:+ ";Parent=" +:+ segmentId +:+ ";Sampled=1";
  getW3CTraceIdHeaderValue := fun traceId segmentId =>
    "00-" +:+ traceId +:+ "-" +:+ segmentId +:+ "-01";
  errorEventToJsErrorEvent := fun e _ =>
    match e with
    | XhrError m =>
        {| err_type := "XMLHttpRequest error"; err_message := m;
           err_stack := None |}
    | ErrorString s =>
        {| err_type := s; err_message := s; err_stack := None |}
    end
|}.

Definition sampleConfig : HttpPluginConfig :=
  {| logicalServiceName := "rum.aws.amazon.com";
     urlsToInclude := [fun _ => true];
     urlsToExclude := [];
     stackTraceLength := 200;
     recordAllRequests := false;
     cfg_addXRayTraceIdHeader := inl true |}.

(** Tracing enabled, legacy header format, an ordinary browser. *)
Definition samplePlugin : Plugin :=
  newPlugin sampleConfig {| enableXRay := true; enableW3CTraceId := false |}
    "Mozilla/5.0 (X11; Linux x86_64)".

Definition sampleEntropy : Entropy :=
  {| legacy_trace_id := "1-0-000000000000000000000000";
     w3c_trace_id := "00000000000000000000000000000000";
     segment_id := "0000000000000001";
     subsegment_id := "0000000000000002" |}.

Definition recordedSession : option Session := Some {| record := true |}.

Definition theXhr : positive := 1%positive.

(** [open('GET', 'https://aws.amazon.com', true)] then [send()]. *)
Definition openAndSend : list Action :=
  [Open theXhr "GET" "https://aws.amazon.com" true;
   Send theXhr recordedSession 0 sampleEntropy].

Definition sentWorld : World :=
  default emptyWorld (run samplePlugin openAndSend emptyWorld).

Definition sentDetails : XhrDetails :=
  initializeTrace samplePlugin 0 sampleEntropy
    {| method := "GET"; url := "https://aws.amazon.com"; async := true;
       trace := None |}.

Definition sentTrace : XRayTraceEvent :=
  {| name := "rum.aws.amazon.com";
     id := "0000000000000001";
     start_time := 0;
     trace_id := "1-0-000000000000000000000000";
     end_time := None;
     error := None; fault := None; throttle := None;
     subsegments :=
       [createXRaySubsegment "https://aws.amazon.com" 0
          {| http_request :=
               Some {| req_method := "GET";
                       req_url := "https://aws.amazon.com";
                       req_traced := true |};
             http_response := None |}
          sampleEntropy] |}.

(** The request as the handlers find it when it completes. *)
Definition respond (status' : Z) (statusText' : string) : XMLHttpRequest :=
  {| ref := theXhr; status := status'; statusText := statusText';
     contentLength := Some "125" |}.

Definition failed : XMLHttpRequest :=
  {| ref := theXhr; status := 0; statusText := ""; contentLength := None |}.

(** The world after the call has been answered with 200 OK. *)
Definition loadedWorld : World :=
  default emptyWorld
    (run samplePlugin
       (openAndSend ++ [Fire Load (respond 200 "OK") recordedSession 5])
       emptyWorld).

Definition loadedTrace : XRayTraceEvent :=
  default sentTrace (head (traceEvents (recorded loadedWorld))).

(** The world after the call has failed with a network error. *)
Definition failedWorld : World :=
  default emptyWorld
    (run samplePlugin
       (openAndSend ++ [Fire Error failed recordedSession 5])
       emptyWorld).

(** A plugin whose filter excludes the identity endpoints. *)
Definition filteringPlugin : Plugin :=
  newPlugin
    {| logicalServiceName := "rum.aws.amazon.com";
       urlsToInclude := [fun _ => true];
       urlsToExclude := [fun u => includes u "cognito-identity"];
       stackTraceLength := 200;
       recordAllRequests := false;
       cfg_addXRayTraceIdHeader := inl true |}
    {| enableXRay := true; enableW3CTraceId := false |}
    "Mozilla/5.0 (X11; Linux x86_64)".

(** The sample plugin, in the browser of a synthetics canary. *)
Definition syntheticsPlugin : Plugin :=
  newPlugin sampleConfig {| enableXRay := true; enableW3CTraceId := false |}
    "Mozilla/5.0 (X11; Linux x86_64) CloudWatchSynthetics/arn:aws:canary".

Definition syntheticsWorld : World :=
  default emptyWorld
    (run syntheticsPlugin
       (openAndSend ++ [Fire Load (respond 200 "OK") recordedSession 5])
       emptyWorld).

Import BasicAuthentication.

Definition sampleAuthConfig : Config :=
  {| identityPoolId := "us-west-2:pool"; guestRoleArn := "arn:aws:iam::role" |}.

Definition sampleKey : string := "cwr_c".

Definition sampleCredentials : AwsCredentialIdentity :=
  {| accessKeyId := "AKIA"; secretAccessKey := "secret";
     sessionToken := Some "token"; expiration := Some 3600 |}.

Definition initialState : State :=
  {| credentials := None; localStorage := ∅; log := [] |}.

(** Every call to the security token service is rejected. *)
#[export] Instance rejectingServices : Services := {|
  getIdReply := fun _ _ => Resolved {| IdentityId := "id" |};
  getOpenIdTokenReply := fun _ _ => Resolved {| Token := "jwt" |};
  assumeRoleWithWebIdentityReply := fun _ _ => Rejected "AccessDenied";
  setItemError := fun _ _ _ => None;
  stringify := fun c => accessKeyId c
|}.

(** The exchange succeeds, and local storage is full. *)
Definition fullStorageServices : Services := {|
  getIdReply := fun _ _ => Resolved {| IdentityId := "id" |};
  getOpenIdTokenReply := fun _ _ => Resolved {| Token := "jwt" |};
  assumeRoleWithWebIdentityReply := fun _ _ => Resolved sampleCredentials;
  setItemError := fun _ _ _ => Some "QuotaExceededError";
  stringify := fun c => accessKeyId c
|}.

(** The states after a first and after a second rejected exchange. *)
Definition afterFirstFailure : State :=
  (exchange sampleAuthConfig sampleKey initialState).2.

Definition afterSecondFailure : State :=
  (exchange sampleAuthConfig sampleKey afterFirstFailure).2.

(** The state after an acquisition that succeeds while local storage is
    full. *)
Definition afterAcquisition : State :=
  (@AnonymousCognitoCredentialsProvider fullStorageServices sampleAuthConfig
     sampleKey initialState).2.

End Scenario.

(* ===================================================================== *)
(** * Properties of the XMLHttpRequest plugin *)
(* ===================================================================== *)

Module XhrPluginProps.

Import XhrPlugin.

(** ** The runtime functions on sample inputs *)

Example parseInt_digits : parseInt "125" = Finite false 125.
Proof. reflexivity. Qed.

Example parseInt_prefix : parseInt "  -12px" = Finite true 12.
Proof. reflexivity. Qed.

Example parseInt_NaN : parseInt "chunked" = NaN.
Proof. reflexivity. Qed.

Example parseInt_sign_only : parseInt "-" = NaN.
Proof. reflexivity. Qed.

Example parseInt_negative_zero : parseInt "-0" = Finite true 0.
Proof. reflexivity. Qed.

Example parseInt_no_break_space :
  parseInt (String (ascii_of_nat 160) "125") = Finite false 125.
Proof. reflexivity. Qed.

Example parseInt_safe_integer :
  parseInt "9007199254740991" = Finite false 9007199254740991.
Proof. reflexivity. Qed.

Example parseInt_tie_to_even_down :
  parseInt "9007199254740993" = Finite false 9007199254740992.
Proof. reflexivity. Qed.

Example parseInt_tie_to_even_up :
  parseInt "9007199254740995" = Finite false 9007199254740996.
Proof. reflexivity. Qed.

Example parseInt_rounds_to_nearest :
  parseInt "123456789012345678901234567890"
  = Finite false 123456789012345677877719597056.
Proof. vm_compute. reflexivity. Qed.

Example parseInt_overflow :
  parseInt (String "1" (string_of_list_ascii (replicate 309 "0"%char)))
  = Infinite false.
Proof. vm_compute. reflexivity. Qed.

Example toString_status : toString 404 = "404"%string.
Proof. reflexivity. Qed.

Example includes_marker :
  includes "Mozilla/5.0 CloudWatchSynthetics/arn" "CloudWatchSynthetics" = true.
Proof. reflexivity. Qed.

Example errorMessage_with_text :
  errorMessage {| ref := 1%positive; status := 404; statusText := "Not Found";
                  contentLength := None |} = "404: Not Found"%string.
Proof. reflexivity. Qed.

(** ** The writes of the handlers *)

Ltac open_trace t s :=
  destruct t as [tn ti tst ttid tet ter tfa tth tsub];
  destruct s as [si sn sst set' sns sht ser sfa sth sca];
  cbn in *; subst.

Section Writers.

Context `{Imports}.

Lemma initializeTrace_asSent self startTime rnd d :
  exists t, trace (initializeTrace self startTime rnd d) = Some t /\ asSent t.
Proof.
  eexists. split; [reflexivity|].
  repeat split. eexists. split; [reflexivity|].
  repeat split. eexists. split; reflexivity.
Qed.

(** What [handleXhrLoadEvent] writes to a trace whose first subsegment
    carries request information. *)
Lemma loadTrace_writes xhr endTime t s rest h :
  subsegments t = s :: rest -> seg_http s = Some h ->
  exists t' s' r,
    loadTrace xhr endTime t = Some t'
    /\ subsegments t' = s' :: rest
    /\ seg_http s' = Some (set_http_response r h)
    /\ resp_status r = status xhr
    /\ seg_cause s' = seg_cause s
    /\ trace_id t' = trace_id t /\ seg_id s' = seg_id s
    /\ rootFlags t' =
         (if is429 (status xhr) then (Some true, error t, fault t)
          else if is4xx (status xhr) then (throttle t, Some true, fault t)
          else if is5xx (status xhr) then (throttle t, error t, Some true)
          else rootFlags t)
    /\ subsegmentFlags s' =
         (if is429 (status xhr) then (Some true, seg_error s, seg_fault s)
          else if is4xx (status xhr) then (seg_throttle s, Some true, seg_fault s)
          else if is5xx (status xhr) then (seg_throttle s, seg_error s, Some true)
          else subsegmentFlags s).
Proof.
  intros Hs Hh. open_trace t s.
  unfold loadTrace, on_subsegment0, on_http, on_response; cbn.
  destruct (is429 (status xhr)), (is4xx (status xhr)), (is5xx (status xhr));
    cbn;
    (destruct (contentLength xhr) as [clStr|]; cbn;
     [destruct (truthy clStr); cbn; [destruct (parseInt clStr); cbn|]|]);
    do 3 eexists; repeat split; reflexivity.
Qed.

(** What [handleXhrErrorEvent] writes. *)
Lemma errorTrace_writes xhr endTime t s rest :
  subsegments t = s :: rest ->
  exists t' s',
    errorTrace xhr endTime t = Some t'
    /\ subsegments t' = s' :: rest
    /\ seg_http s' = seg_http s
    /\ seg_cause s' =
         Some {| exceptions :=
                   [ {| exc_type := "XMLHttpRequest error";
                        exc_message := Some (errorMessage xhr) |} ] |}
    /\ trace_id t' = trace_id t /\ seg_id s' = seg_id s
    /\ rootFlags t' = (throttle t, error t, Some true)
    /\ subsegmentFlags s' = (seg_throttle s, seg_error s, Some true).
Proof.
  intros Hs. open_trace t s.
  do 2 eexists; repeat split; reflexivity.
Qed.

(** What [handleXhrDetailsOnError] writes. *)
Lemma detailsOnErrorTrace_writes errorName endTime t s rest :
  subsegments t = s :: rest ->
  exists t' s',
    detailsOnErrorTrace errorName endTime t = Some t'
    /\ subsegments t' = s' :: rest
    /\ seg_http s' = seg_http s
    /\ seg_cause s' =
         Some {| exceptions :=
                   [ {| exc_type := errorName; exc_message := None |} ] |}
    /\ trace_id t' = trace_id t /\ seg_id s' = seg_id s
    /\ rootFlags t' = rootFlags t
    /\ subsegmentFlags s' = (seg_throttle s, Some true, seg_fault s).
Proof.
  intros Hs. open_trace t s.
  do 2 eexists; repeat split; reflexivity.
Qed.

(** Every handler leaves a first subsegment in place, with the identifiers
    that [attachTraceIds] reads. *)
Lemma outcomeTrace_defined sig xhr endTime t s rest h :
  subsegments t = s :: rest -> seg_http s = Some h ->
  exists t' s',
    outcomeTrace sig xhr endTime t = Some t'
    /\ subsegments t' = s' :: rest
    /\ trace_id t' = trace_id t /\ seg_id s' = seg_id s.
Proof.
  intros Hs Hh. destruct sig; cbn.
  - destruct (loadTrace_writes xhr endTime t s rest h Hs Hh)
      as (t' & s' & r & ? & ? & _ & _ & _ & ? & ? & _).
    by exists t', s'.
  - destruct (errorTrace_writes xhr endTime t s rest Hs)
      as (t' & s' & ? & ? & _ & _ & ? & ? & _).
    by exists t', s'.
  - destruct (detailsOnErrorTrace_writes "XMLHttpRequest abort" endTime t s
                rest Hs) as (t' & s' & ? & ? & _ & _ & ? & ? & _).
    by exists t', s'.
  - destruct (detailsOnErrorTrace_writes "XMLHttpRequest timeout" endTime t s
                rest Hs) as (t' & s' & ? & ? & _ & _ & ? & ? & _).
    by exists t', s'.
Qed.

End Writers.

Section Completion.

Context `{Imports}.

Variable (self : Plugin).

(** The handler of a signal, run on a record that holds a trace with request
    information: the record leaves the map, and the sink receives the trace
    (if traces are recorded) and then the HTTP event (if it is). *)
Lemma handle_sent sig session endTime xhr w d t s rest h :
  xhrMap w !! ref xhr = Some d -> trace d = Some t ->
  subsegments t = s :: rest -> seg_http s = Some h ->
  exists t' e,
    outcomeTrace sig xhr endTime t = Some t'
    /\ handle self sig session endTime xhr w =
         Some {| xhrMap := delete (ref xhr) (xhrMap w);
                 recorded :=
                   recorded w
                   ++ (if tracesRecorded self session
                       then [TraceEvent t'] else [])
                   ++ (if httpRecorded self sig xhr
                       then [HttpEventRec e] else []);
                 requestHeaders := requestHeaders w;
                 listeners := listeners w |}
    /\ (is_Some (response e) <-> sig = Load).
Proof.
  intros Hd Ht Hs Hh.
  destruct (outcomeTrace_defined sig xhr endTime t s rest h Hs Hh)
    as (t' & s' & Hout & Hs' & _ & _).
  exists t'.
  assert (Hids : forall e, attachTraceIds self (set_trace t' d) e =
                   Some (if isTracingEnabled self
                         then set_trace_ids (trace_id t') (seg_id s') e
                         else e)).
  { intros e. unfold attachTraceIds. destruct (isTracingEnabled self); cbn;
      [rewrite Hs'|]; reflexivity. }
  destruct sig; cbn in Hout; cbn [handle];
    unfold handleXhrLoadEvent, handleXhrErrorEvent, handleXhrAbortEvent,
      handleXhrTimeoutEvent, handleXhrDetailsOnError;
    rewrite Hd; cbn; rewrite Ht; cbn; rewrite Hout; cbn;
    unfold recordHttpEventWithResponse, recordHttpEventWithError;
    rewrite Hids; cbn;
    unfold recordTraceEvent, tracesRecorded, httpRecorded;
    eexists; (split; [reflexivity|]).
  all: split;
    [ destruct (negb (isSyntheticsUA self) && isTracingEnabled self
                && isSessionRecorded session);
      try destruct (recordAllRequests (config self)
                    || negb (statusOk (status xhr)));
      cbn; unfold contextRecord, set_xhrMap; cbn;
      rewrite <- ?app_assoc, ?app_nil_r; reflexivity
    | destruct (isTracingEnabled self); cbn; split;
      first [ done | by intros [? ?] | by eauto ] ].
Qed.

Lemma handle_absent sig session endTime xhr w :
  xhrMap w !! ref xhr = None ->
  handle self sig session endTime xhr w = Some w.
Proof.
  intros Hd. destruct sig; cbn;
    unfold handleXhrLoadEvent, handleXhrErrorEvent, handleXhrAbortEvent,
      handleXhrTimeoutEvent, handleXhrDetailsOnError;
    rewrite Hd; reflexivity.
Qed.

(** A signal for a record that was opened and never sent: the first write
    dereferences the missing trace. *)
Lemma handle_unsent sig session endTime xhr w d :
  xhrMap w !! ref xhr = Some d -> trace d = None ->
  handle self sig session endTime xhr w = None.
Proof.
  intros Hd Ht. destruct sig; cbn;
    unfold handleXhrLoadEvent, handleXhrErrorEvent, handleXhrAbortEvent,
      handleXhrTimeoutEvent, handleXhrDetailsOnError;
    rewrite Hd; cbn; rewrite Ht; reflexivity.
Qed.

Lemma asSent_shape t :
  asSent t ->
  exists s h, subsegments t = [s] /\ seg_http s = Some h
              /\ http_response h = None /\ seg_cause s = None
              /\ rootFlags t = (None, None, None)
              /\ subsegmentFlags s = (None, None, None).
Proof.
  intros (He & Hf & Ht & s & Hs & (h & Hh & Hr) & Hc & Hse & Hsf & Hst).
  exists s, h. unfold rootFlags, subsegmentFlags.
  rewrite He, Hf, Ht, Hse, Hsf, Hst. done.
Qed.

Lemma traceEvents_app (l1 l2 : list Recorded) :
  traceEvents (l1 ++ l2) = traceEvents l1 ++ traceEvents l2.
Proof. apply omap_app. Qed.

Lemma traceEvents_emitted (t : XRayTraceEvent) (e : HttpEvent) (b1 b2 : bool) :
  traceEvents ((if b1 then [TraceEvent t] else [])
               ++ (if b2 then [HttpEventRec e] else []))
  = if b1 then [t] else [].
Proof. by destruct b1, b2. Qed.

Lemma httpEvents_emitted (t : XRayTraceEvent) (e : HttpEvent) (b1 b2 : bool) :
  httpEvents ((if b1 then [TraceEvent t] else [])
              ++ (if b2 then [HttpEventRec e] else []))
  = if b2 then [e] else [].
Proof. by destruct b1, b2. Qed.

Lemma newPlugin_isSyntheticsUA merged ctx userAgent :
  isSyntheticsUA (newPlugin merged ctx userAgent)
  = includes userAgent "CloudWatchSynthetics".
Proof. reflexivity. Qed.

Lemma tracesRecorded_gate session :
  tracesRecorded self session = true <-> traceGate self session.
Proof.
  unfold tracesRecorded, traceGate, isTracingEnabled, isSessionRecorded.
  destruct (isSyntheticsUA self), (enableXRay (context self)),
    session as [[[]]|]; cbn; split; try done;
    try (by intros (? & ? & ? & ? & ?)); try (by intros (? & ? & s & [= <-] & ?)).
  intros _. repeat split. by eexists.
Qed.

Lemma statusOk_range st :
  statusOk st = true <-> 200 <= st < 300.
Proof. unfold statusOk. rewrite andb_true_iff. lia. Qed.

End Completion.

Section Claims.

Context `{Imports}.

Variable (self : Plugin).

(** C1 (amended). The first completion signal (load, error, abort or
    timeout) of a sent call removes the call-state record from the in-flight
    map, so that any later completion signal for the same request finds no
    record and changes nothing. Handling it records at most one HTTP event
    and at most one trace event: exactly one HTTP event on the error, abort
    and timeout paths, and on the load path one exactly when "record all
    requests" is set or the status is outside [200,300). *)
Theorem first_signal_consumes_record sig session endTime xhr w d t :
  xhrMap w !! ref xhr = Some d -> trace d = Some t -> asSent t ->
  exists w' evs,
    handle self sig session endTime xhr w = Some w'
    /\ xhrMap w' !! ref xhr = None
    /\ recorded w' = recorded w ++ evs
    /\ (length (httpEvents evs) <= 1)%nat
    /\ (sig <> Load -> length (httpEvents evs) = 1%nat)
    /\ (sig = Load ->
        (length (httpEvents evs) = 1%nat <->
         recordAllRequests (config self) = true
         \/ ~ (200 <= status xhr < 300)))
    /\ (length (traceEvents evs) <= 1)%nat
    /\ forall sig' session' endTime' xhr',
         ref xhr' = ref xhr ->
         handle self sig' session' endTime' xhr' w' = Some w'.
Proof.
  intros Hd Ht Hsent.
  destruct (asSent_shape t Hsent) as (s & h & Hs & Hh & _).
  destruct (handle_sent self sig session endTime xhr w d t s [] h Hd Ht Hs Hh)
    as (t' & e & _ & Hw & _).
  eexists; eexists. split; [exact Hw|]. cbn.
  split; [apply lookup_delete_eq|].
  split; [reflexivity|].
  rewrite httpEvents_emitted, traceEvents_emitted.
  split; [|split; [|split; [|split]]].
  - destruct (httpRecorded self sig xhr); cbn; lia.
  - intros Hsig. destruct sig; try done.
  - intros Hsig; subst sig. cbn. split.
    + destruct (recordAllRequests (config self)); cbn; [intros _; by left|].
      destruct (statusOk (status xhr)) eqn:Hok; cbn; [done|].
      intros _. right. rewrite <- statusOk_range, Hok. done.
    + destruct (recordAllRequests (config self)); cbn; [done|].
      intros [?|Hnot]; [done|].
      destruct (statusOk (status xhr)) eqn:Hok; cbn; [|done].
      exfalso. apply Hnot. by apply statusOk_range.
  - destruct (tracesRecorded self session); cbn; lia.
  - intros sig' session' endTime' xhr' Href.
    apply handle_absent. cbn. rewrite Href. apply lookup_delete_eq.
Qed.

(** C4. For a handled completion: on the error, abort and timeout paths an
    HTTP event is always recorded; on the load path an HTTP event is recorded
    if and only if "record all requests" is set or the status is outside
    [200,300). The event is the only thing, besides the trace, that the
    handler records. *)
Theorem http_event_emission_policy sig session endTime xhr w d t :
  xhrMap w !! ref xhr = Some d -> trace d = Some t -> asSent t ->
  exists w' evs,
    handle self sig session endTime xhr w = Some w'
    /\ recorded w' = recorded w ++ evs
    /\ (sig <> Load -> exists e, httpEvents evs = [e])
    /\ (sig = Load ->
        ((exists e, httpEvents evs = [e]) <->
         recordAllRequests (config self) = true
         \/ ~ (200 <= status xhr < 300))
        /\ ((forall e, httpEvents evs <> [e]) -> httpEvents evs = [])).
Proof.
  intros Hd Ht Hsent.
  destruct (asSent_shape t Hsent) as (s & h & Hs & Hh & _).
  destruct (handle_sent self sig session endTime xhr w d t s [] h Hd Ht Hs Hh)
    as (t' & e & _ & Hw & _).
  eexists; eexists. split; [exact Hw|]. cbn.
  split; [reflexivity|].
  rewrite httpEvents_emitted.
  split.
  - intros Hsig. destruct sig; try done; cbn; by eexists.
  - intros Hsig; subst sig. cbn. split; [split|].
    + destruct (recordAllRequests (config self)); cbn; [intros _; by left|].
      destruct (statusOk (status xhr)) eqn:Hok; cbn; [by intros [? ?]|].
      intros _. right. rewrite <- statusOk_range, Hok. done.
    + destruct (recordAllRequests (config self)); cbn; [by eexists|].
      intros [?|Hnot]; [done|].
      destruct (statusOk (status xhr)) eqn:Hok; cbn; [|by eexists].
      exfalso. apply Hnot. by apply statusOk_range.
    + destruct (recordAllRequests (config self) || negb (statusOk (status xhr)));
        [|done].
      intros Hno. by destruct (Hno e).
Qed.

(** C7. At the completion of a sent call a trace event is recorded if and
    only if the user agent is not a synthetics agent, X-Ray tracing is
    enabled and the session is recorded; a session that is undefined, or
    whose [record] field is false, counts as not recorded, and then no trace
    event is recorded whatever the other settings. When one is recorded, it
    is the trace as the handler left it. *)
Theorem trace_event_gate sig session endTime xhr w d t :
  xhrMap w !! ref xhr = Some d -> trace d = Some t -> asSent t ->
  exists w' evs t',
    handle self sig session endTime xhr w = Some w'
    /\ recorded w' = recorded w ++ evs
    /\ outcomeTrace sig xhr endTime t = Some t'
    /\ (traceEvents evs = [t'] <->
        isSyntheticsUA self = false
        /\ enableXRay (context self) = true
        /\ exists s, session = Some s /\ record s = true)
    /\ (traceEvents evs <> [t'] -> traceEvents evs = [])
    /\ (session = None -> traceEvents evs = [])
    /\ (forall s, session = Some s -> record s = false ->
        traceEvents evs = []).
Proof.
  intros Hd Ht Hsent.
  destruct (asSent_shape t Hsent) as (s & h & Hs & Hh & _).
  destruct (handle_sent self sig session endTime xhr w d t s [] h Hd Ht Hs Hh)
    as (t' & e & Hout & Hw & _).
  eexists; eexists; exists t'. split; [exact Hw|]. cbn.
  split; [reflexivity|]. split; [exact Hout|].
  rewrite traceEvents_emitted.
  pose proof (tracesRecorded_gate self session) as [Hg1 Hg2].
  unfold traceGate in Hg1, Hg2.
  destruct (tracesRecorded self session) eqn:Hrec.
  - destruct (Hg1 eq_refl) as (Hua & Hx & s0 & -> & Hr).
    split; [split; [intros _|done]|split; [done|split]].
    + by eauto.
    + done.
    + intros s1 [= <-]. congruence.
  - split; [split; [done|]|by auto].
    intros Hg. by apply Hg2 in Hg.
Qed.

Lemma is429_spec st : is429 st = true <-> st = 429.
Proof. unfold is429. apply Z.eqb_eq. Qed.

Lemma is4xx_spec st : is4xx st = true <-> 400 <= st < 500.
Proof. unfold is4xx. rewrite andb_true_iff. lia. Qed.

Lemma is5xx_spec st : is5xx st = true <-> 500 <= st < 600.
Proof. unfold is5xx. rewrite andb_true_iff. lia. Qed.

(** C2. When a sent call completes with a response of status [s], the load
    handler sets [throttle] on the trace root and on the subsegment when
    [s = 429]; otherwise [error] on both when [400 <= s < 500]; otherwise
    [fault] on both when [500 <= s < 600]; otherwise no flag. So at most one
    of the three flags is set, and the flags of the root equal those of the
    subsegment. The trace so flagged is the one handed to the sink. *)
Theorem load_status_classification session endTime xhr w d t :
  xhrMap w !! ref xhr = Some d -> trace d = Some t -> asSent t ->
  exists w' evs t' s',
    handleXhrLoadEvent self session endTime xhr w = Some w'
    /\ recorded w' = recorded w ++ evs
    /\ loadTrace xhr endTime t = Some t'
    /\ traceEvents evs = (if tracesRecorded self session then [t'] else [])
    /\ subsegments t' = [s']
    /\ (status xhr = 429 -> rootFlags t' = (Some true, None, None))
    /\ (status xhr <> 429 -> 400 <= status xhr < 500 ->
        rootFlags t' = (None, Some true, None))
    /\ (500 <= status xhr < 600 -> rootFlags t' = (None, None, Some true))
    /\ (status xhr < 400 \/ 600 <= status xhr ->
        rootFlags t' = (None, None, None))
    /\ subsegmentFlags s' = rootFlags t'.
Proof.
  intros Hd Ht Hsent.
  destruct (asSent_shape t Hsent)
    as (s & h & Hs & Hh & _ & _ & Hroot & Hseg).
  destruct (handle_sent self Load session endTime xhr w d t s [] h Hd Ht Hs Hh)
    as (t' & e & Hout & Hw & _).
  destruct (loadTrace_writes xhr endTime t s [] h Hs Hh)
    as (t'' & s' & r & Hout' & Hs' & _ & _ & _ & _ & _ & Hrf & Hsf).
  cbn in Hout, Hw. rewrite Hout in Hout'. injection Hout' as <-.
  rewrite Hroot in Hrf. rewrite Hseg in Hsf.
  injection Hroot as Hth Her Hfa. injection Hseg as Hsth Hser Hsfa.
  rewrite Hth, Her, Hfa in Hrf. rewrite Hsth, Hser, Hsfa in Hsf.
  eexists; eexists; exists t', s'. split; [exact Hw|]. cbn.
  split; [reflexivity|]. split; [exact Hout|].
  rewrite traceEvents_emitted. split; [reflexivity|].
  split; [exact Hs'|].
  rewrite Hsf, Hrf.
  unfold is429, is4xx, is5xx.
  destruct (Z.eqb_spec (status xhr) 429), (Z.leb_spec 400 (status xhr)),
    (Z.ltb_spec (status xhr) 500), (Z.leb_spec 500 (status xhr)),
    (Z.ltb_spec (status xhr) 600); cbn;
    (split; [|split; [|split; [|split]]]); intros;
    first [reflexivity | lia].
Qed.

(** What the abort and timeout handlers write to the subsegment: when a
    sent call ends with an abort or a timeout signal, the trace handed to the
    sink carries, on its single subsegment, [error = true] and a cause whose
    only exception has the type 'XMLHttpRequest abort', respectively
    'XMLHttpRequest timeout'; that subsegment carries no [http.response]. *)
Theorem abort_timeout_outcome sig session endTime xhr w d t :
  sig = Abort \/ sig = Timeout ->
  xhrMap w !! ref xhr = Some d -> trace d = Some t -> asSent t ->
  exists w' evs t' s' h',
    handle self sig session endTime xhr w = Some w'
    /\ recorded w' = recorded w ++ evs
    /\ detailsOnErrorTrace (errorNameOf sig) endTime t = Some t'
    /\ traceEvents evs = (if tracesRecorded self session then [t'] else [])
    /\ subsegments t' = [s']
    /\ seg_error s' = Some true
    /\ (sig = Abort ->
        seg_cause s' =
          Some {| exceptions := [ {| exc_type := "XMLHttpRequest abort";
                                     exc_message := None |} ] |})
    /\ (sig = Timeout ->
        seg_cause s' =
          Some {| exceptions := [ {| exc_type := "XMLHttpRequest timeout";
                                     exc_message := None |} ] |})
    /\ seg_http s' = Some h' /\ http_response h' = None.
Proof.
  intros Hsig Hd Ht Hsent.
  destruct (asSent_shape t Hsent)
    as (s & h & Hs & Hh & Hresp & _ & _ & _).
  destruct (handle_sent self sig session endTime xhr w d t s [] h Hd Ht Hs Hh)
    as (t' & e & Hout & Hw & _).
  destruct (detailsOnErrorTrace_writes (errorNameOf sig) endTime t s [] Hs)
    as (t'' & s' & Hout' & Hs' & Hh' & Hc & _ & _ & _ & Hsf).
  assert (outcomeTrace sig xhr endTime t
          = detailsOnErrorTrace (errorNameOf sig) endTime t) as Heq
    by (by destruct Hsig as [-> | ->]).
  rewrite Heq, Hout' in Hout. injection Hout as <-.
  injection Hsf as _ Hse _.
  eexists; eexists; exists t'', s', h. split; [exact Hw|]. cbn.
  split; [reflexivity|]. split; [exact Hout'|].
  rewrite traceEvents_emitted. split; [reflexivity|].
  split; [exact Hs'|]. split; [exact Hse|].
  split; [intros Hsig'; subst sig; exact Hc|].
  split; [intros Hsig'; subst sig; exact Hc|].
  split; [by rewrite Hh'|exact Hresp].
Qed.

(** On the abort and timeout paths the flags of the trace root are left as
    they were: only the subsegment is flagged. *)
Lemma abort_timeout_root_flags sig endTime t t' :
  sig = Abort \/ sig = Timeout -> asSent t ->
  detailsOnErrorTrace (errorNameOf sig) endTime t = Some t' ->
  rootFlags t' = (None, None, None).
Proof.
  intros Hsig Hsent Hout.
  destruct (asSent_shape t Hsent) as (s & h & Hs & _ & _ & _ & Hroot & _).
  destruct (detailsOnErrorTrace_writes (errorNameOf sig) endTime t s [] Hs)
    as (t'' & s' & Hout' & _ & _ & _ & _ & _ & Hrf & _).
  rewrite Hout in Hout'. injection Hout' as <-. by rewrite Hrf.
Qed.

(** C10. On the network-error path the cause exception carries the type
    'XMLHttpRequest error' and a message derived from the status: the status
    number alone when [statusText] is empty, and '<status>: <statusText>'
    otherwise. On the abort and timeout paths the cause exception carries a
    type only, and no message. *)
Theorem cause_exception_shape sig session endTime xhr w d t :
  sig <> Load ->
  xhrMap w !! ref xhr = Some d -> trace d = Some t -> asSent t ->
  exists w' evs t' s' ex,
    handle self sig session endTime xhr w = Some w'
    /\ recorded w' = recorded w ++ evs
    /\ outcomeTrace sig xhr endTime t = Some t'
    /\ traceEvents evs = (if tracesRecorded self session then [t'] else [])
    /\ subsegments t' = [s']
    /\ seg_cause s' = Some {| exceptions := [ex] |}
    /\ (sig = Error ->
        exc_type ex = "XMLHttpRequest error"
        /\ exists m, exc_message ex = Some m
           /\ (statusText xhr = "" -> m = toString (status xhr))
           /\ (statusText xhr <> "" ->
               m = toString (status xhr) +:+ ": " +:+ statusText xhr))
    /\ (sig = Abort ->
        ex = {| exc_type := "XMLHttpRequest abort"; exc_message := None |})
    /\ (sig = Timeout ->
        ex = {| exc_type := "XMLHttpRequest timeout"; exc_message := None |}).
Proof.
  intros Hsig Hd Ht Hsent.
  destruct (asSent_shape t Hsent) as (s & h & Hs & Hh & _).
  destruct (handle_sent self sig session endTime xhr w d t s [] h Hd Ht Hs Hh)
    as (t' & e & Hout & Hw & _).
  assert (exists s' ex,
            subsegments t' = [s'] /\ seg_cause s' = Some {| exceptions := [ex] |}
            /\ ex = match sig with
                    | Error => {| exc_type := "XMLHttpRequest error";
                                  exc_message := Some (errorMessage xhr) |}
                    | Abort => {| exc_type := "XMLHttpRequest abort";
                                  exc_message := None |}
                    | _ => {| exc_type := "XMLHttpRequest timeout";
                              exc_message := None |}
                    end) as (s' & ex & Hs' & Hc & Hex).
  { destruct sig; [done| | |]; cbn in Hout.
    - destruct (errorTrace_writes xhr endTime t s [] Hs)
        as (t'' & s' & Hout' & Hs' & _ & Hc & _).
      rewrite Hout in Hout'. injection Hout' as <-. by eauto.
    - destruct (detailsOnErrorTrace_writes "XMLHttpRequest abort" endTime t s
                  [] Hs) as (t'' & s' & Hout' & Hs' & _ & Hc & _).
      rewrite Hout in Hout'. injection Hout' as <-. by eauto.
    - destruct (detailsOnErrorTrace_writes "XMLHttpRequest timeout" endTime t
                  s [] Hs) as (t'' & s' & Hout' & Hs' & _ & Hc & _).
      rewrite Hout in Hout'. injection Hout' as <-. by eauto. }
  eexists; eexists; exists t', s', ex. split; [exact Hw|]. cbn.
  split; [reflexivity|]. split; [exact Hout|].
  rewrite traceEvents_emitted. split; [reflexivity|].
  split; [exact Hs'|]. split; [exact Hc|].
  split; [|split]; intros Hsig'; subst sig; subst ex; cbn; [|done|done].
  split; [done|]. eexists. split; [reflexivity|].
  unfold errorMessage. destruct (statusText xhr); cbn; split; done.
Qed.

Lemma headerGate_bool session url' :
  negb (isSyntheticsUA self) && isTracingEnabled self
  && addXRayTraceIdHeader self url' && isSessionRecorded session = true
  <-> headerGate self session url'.
Proof.
  unfold headerGate, addXRayTraceIdHeader, isTracingEnabled,
    isSessionRecorded.
  destruct (isSyntheticsUA self), (enableXRay (context self)),
    (isTraceIdHeaderEnabled url' (cfg_addXRayTraceIdHeader (config self))),
    session as [[[]]|]; cbn; split; try done;
    try (by intros (? & ? & ? & ? & ? & ?));
    try (by intros (? & ? & ? & s & [= <-] & ?)).
  intros _. repeat split. by eexists.
Qed.

(** C8. When a call that has a call-state record is sent, a trace header is
    set on the request if and only if the user agent is not a synthetics
    agent, tracing is enabled, the header-injection setting matches the URL
    and the session is recorded. When one is set it is the only one:
    [traceparent] when the W3C format is enabled, [X-Amzn-Trace-Id]
    otherwise. *)
Theorem trace_header_injection session startTime rnd this w d :
  xhrMap w !! this = Some d ->
  exists w' hs,
    sendWrapper self session startTime rnd this w = Some w'
    /\ requestHeaders w' = requestHeaders w ++ hs
    /\ (hs <> [] <-> headerGate self session (url d))
    /\ (hs <> [] ->
        enableW3CTraceId (context self) = true ->
        hs = [(this, ("traceparent",
                      getW3CTraceIdHeaderValue (w3c_trace_id rnd)
                        (subsegment_id rnd)))])
    /\ (hs <> [] ->
        enableW3CTraceId (context self) = false ->
        hs = [(this, ("X-Amzn-Trace-Id",
                      getAmznTraceIdHeaderValue (legacy_trace_id rnd)
                        (subsegment_id rnd)))]).
Proof.
  intros Hd. unfold sendWrapper. rewrite Hd.
  pose proof (headerGate_bool session (url d)) as [Hg1 Hg2].
  change (url (initializeTrace self startTime rnd d)) with (url d).
  destruct (negb (isSyntheticsUA self) && isTracingEnabled self
            && addXRayTraceIdHeader self (url d)
            && isSessionRecorded session) eqn:Hgate.
  - cbn. destruct (enableW3CTraceId (context self)) eqn:Hw3c;
      eexists; eexists; (split; [reflexivity|]); cbn;
      (split; [reflexivity|]);
      (split; [split; [intros _; by apply Hg1|done]|]);
      split; intros _ ?; done.
  - exists (set_xhrMap (<[this := initializeTrace self startTime rnd d]>
                          (xhrMap w))
              (addEventListener this Timeout
                 (addEventListener this Abort
                    (addEventListener this Error
                       (addEventListener this Load w))))), [].
    split; [reflexivity|]. cbn. rewrite app_nil_r.
    split; [reflexivity|].
    split; [split; [done|]|split; done].
    intros Hg. by apply Hg2 in Hg.
Qed.

(** A request that has no call-state record is sent untouched. *)
Lemma sendWrapper_untracked session startTime rnd this w :
  xhrMap w !! this = None ->
  sendWrapper self session startTime rnd this w = Some w.
Proof. intros Hd. unfold sendWrapper. by rewrite Hd. Qed.

(** The outcome of a handler on a trace as it was sent: a response and no
    cause on the load path, a cause and no response on the other three. *)
Lemma outcomeTrace_exclusive sig xhr endTime t t' :
  asSent t -> outcomeTrace sig xhr endTime t = Some t' ->
  exists s', subsegments t' = [s']
             /\ hasResponse s' = isLoad sig
             /\ hasCause s' = negb (isLoad sig).
Proof.
  intros Hsent Hout.
  destruct (asSent_shape t Hsent) as (s & h & Hs & Hh & Hr & Hc & _).
  unfold hasResponse, hasCause.
  destruct sig; cbn in Hout.
  - destruct (loadTrace_writes xhr endTime t s [] h Hs Hh)
      as (t'' & s' & r & Hout' & Hs' & Hh' & _ & Hc' & _).
    rewrite Hout in Hout'. injection Hout' as <-.
    exists s'. by rewrite Hh', Hc', Hc.
  - destruct (errorTrace_writes xhr endTime t s [] Hs)
      as (t'' & s' & Hout' & Hs' & Hh' & Hc' & _).
    rewrite Hout in Hout'. injection Hout' as <-.
    exists s'. by rewrite Hh', Hh, Hr, Hc'.
  - destruct (detailsOnErrorTrace_writes "XMLHttpRequest abort" endTime t s
                [] Hs) as (t'' & s' & Hout' & Hs' & Hh' & Hc' & _).
    rewrite Hout in Hout'. injection Hout' as <-.
    exists s'. by rewrite Hh', Hh, Hr, Hc'.
  - destruct (detailsOnErrorTrace_writes "XMLHttpRequest timeout" endTime t s
                [] Hs) as (t'' & s' & Hout' & Hs' & Hh' & Hc' & _).
    rewrite Hout in Hout'. injection Hout' as <-.
    exists s'. by rewrite Hh', Hh, Hr, Hc'.
Qed.

Lemma invariant_init : invariant emptyWorld.
Proof.
  split.
  - intros x d t Hd. cbn in Hd. by rewrite lookup_empty in Hd.
  - intros t Ht. cbn in Ht. by apply not_elem_of_nil in Ht.
Qed.

Lemma invariant_openWrapper this m u a w :
  invariant w -> invariant (openWrapper self this m u a w).
Proof.
  intros [Hmap Hlog]. unfold openWrapper.
  destruct (isUrlAllowed u (config self)); [|done].
  split; [|exact Hlog].
  intros x d t Hd Ht. cbn in Hd.
  destruct (decide (this = x)) as [->|Hne].
  - rewrite lookup_insert_eq in Hd. injection Hd as <-. done.
  - rewrite lookup_insert_ne in Hd by done. eauto.
Qed.

Lemma invariant_sendWrapper session startTime rnd this w w' :
  invariant w ->
  sendWrapper self session startTime rnd this w = Some w' ->
  invariant w'.
Proof.
  intros [Hmap Hlog] Hsend.
  destruct (xhrMap w !! this) as [d|] eqn:Hd.
  - assert (xhrMap w' = <[this := initializeTrace self startTime rnd d]>
                          (xhrMap w)
            /\ recorded w' = recorded w) as [Hm Hr].
    { unfold sendWrapper in Hsend. rewrite Hd in Hsend.
      destruct (negb (isSyntheticsUA self) && isTracingEnabled self
                && addXRayTraceIdHeader self
                     (url (initializeTrace self startTime rnd d))
                && isSessionRecorded session);
        cbn in Hsend; [destruct (enableW3CTraceId (context self))|];
        injection Hsend as <-; done. }
    split.
    + intros x d' t. rewrite Hm.
      destruct (decide (this = x)) as [->|Hne].
      * rewrite lookup_insert_eq. intros [= <-] Ht.
        destruct (initializeTrace_asSent self startTime rnd d)
          as (t0 & Ht0 & Hsent). congruence.
      * rewrite lookup_insert_ne by done. eauto.
    + by rewrite Hr.
  - rewrite sendWrapper_untracked in Hsend by done.
    injection Hsend as <-. done.
Qed.

Lemma invariant_handle sig session endTime xhr w w' :
  invariant w ->
  handle self sig session endTime xhr w = Some w' ->
  invariant w'.
Proof.
  intros [Hmap Hlog] Hh.
  destruct (xhrMap w !! ref xhr) as [d|] eqn:Hd.
  - destruct (trace d) as [t|] eqn:Ht.
    + pose proof (Hmap _ _ _ Hd Ht) as Hsent.
      destruct (asSent_shape t Hsent) as (s & h & Hs & Hsh & _).
      destruct (handle_sent self sig session endTime xhr w d t s [] h
                  Hd Ht Hs Hsh) as (t' & e & Hout & Hw & _).
      rewrite Hw in Hh. injection Hh as <-.
      split; cbn [xhrMap recorded].
      * intros x d' t0 Hd'.
        apply lookup_delete_Some in Hd' as [_ Hd']. eauto.
      * intros t0.
        rewrite traceEvents_app, traceEvents_emitted, elem_of_app.
        intros [Hin|Hin]; [by auto|].
        destruct (tracesRecorded self session);
          [|by apply not_elem_of_nil in Hin].
        apply list_elem_of_singleton in Hin as ->.
        destruct (outcomeTrace_exclusive sig xhr endTime t t' Hsent Hout)
          as (s' & Hs' & Hr' & Hc').
        exists s'. split; [done|]. by rewrite Hr', Hc', negb_involutive.
    + by rewrite (handle_unsent self sig session endTime xhr w d) in Hh.
  - rewrite handle_absent in Hh by done. injection Hh as <-. done.
Qed.

Lemma reachable_invariant w : reachable self w -> invariant w.
Proof.
  induction 1 as [|a w w' _ IH Hstep]; [apply invariant_init|].
  destruct a as [this m u a|this session startTime rnd|sig xhr session endTime];
    cbn in Hstep.
  - injection Hstep as <-. by apply invariant_openWrapper.
  - by eapply invariant_sendWrapper.
  - unfold dispatch in Hstep. case_decide.
    + by eapply invariant_handle.
    + injection Hstep as <-. done.
Qed.

(** In a reachable world, a record that holds a trace holds it as
    [initializeTrace] built it. *)
Lemma reachable_asSent w x d t :
  reachable self w ->
  xhrMap w !! x = Some d -> trace d = Some t -> asSent t.
Proof. intros Hreach. by apply (reachable_invariant w Hreach). Qed.

(** C6. In every run of the plugin, each trace handed to the sink has a
    single subsegment that carries exactly one of [http.response] and
    [cause]: a trace recorded by the load handler carries the response and no
    cause, and a trace recorded by the error, abort or timeout handler
    carries the cause and no response. *)
Theorem response_cause_exclusive w :
  reachable self w ->
  (forall t, t ∈ traceEvents (recorded w) ->
     exists s, subsegments t = [s] /\ hasResponse s = negb (hasCause s))
  /\ (forall sig session endTime xhr w' t',
        dispatch self sig session endTime xhr w = Some w' ->
        traceEvents (recorded w') = traceEvents (recorded w) ++ [t'] ->
        exists s', subsegments t' = [s']
                   /\ hasResponse s' = isLoad sig
                   /\ hasCause s' = negb (isLoad sig)).
Proof.
  intros Hreach.
  destruct (reachable_invariant w Hreach) as [Hmap Hlog].
  split; [exact Hlog|].
  intros sig session endTime xhr w' t' Hstep Hnew.
  assert (forall l : list XRayTraceEvent, l = l ++ [t'] -> False) as Hno.
  { intros l Hl. apply (f_equal length) in Hl.
    rewrite length_app in Hl. cbn in Hl. lia. }
  unfold dispatch in Hstep. case_decide;
    [|injection Hstep as <-; by apply Hno in Hnew].
  destruct (xhrMap w !! ref xhr) as [d|] eqn:Hd.
  - destruct (trace d) as [t|] eqn:Ht.
    + pose proof (Hmap _ _ _ Hd Ht) as Hsent.
      destruct (asSent_shape t Hsent) as (s & h & Hs & Hsh & _).
      destruct (handle_sent self sig session endTime xhr w d t s [] h
                  Hd Ht Hs Hsh) as (t0 & e & Hout & Hw & _).
      rewrite Hw in Hstep. injection Hstep as <-. cbn [recorded] in Hnew.
      rewrite traceEvents_app, traceEvents_emitted in Hnew.
      apply app_inv_head in Hnew.
      destruct (tracesRecorded self session); [|done].
      injection Hnew as ->.
      by apply (outcomeTrace_exclusive sig xhr endTime t).
    + by rewrite (handle_unsent self sig session endTime xhr w d) in Hstep.
  - rewrite handle_absent in Hstep by done.
    injection Hstep as <-. by apply Hno in Hnew.
Qed.

End Claims.

(** ** Further properties: one step *)

Section Steps.

Context `{Imports}.

Variable (self : Plugin).

(** The handler of a signal on a sent record, with the HTTP event it builds
    spelled out. *)
Lemma handle_sent_event sig session endTime xhr w d t s rest h :
  xhrMap w !! ref xhr = Some d -> trace d = Some t ->
  subsegments t = s :: rest -> seg_http s = Some h ->
  exists t' s',
    outcomeTrace sig xhr endTime t = Some t'
    /\ subsegments t' = s' :: rest
    /\ trace_id t' = trace_id t /\ seg_id s' = seg_id s
    /\ handle self sig session endTime xhr w =
         Some {| xhrMap := delete (ref xhr) (xhrMap w);
                 recorded :=
                   recorded w
                   ++ (if tracesRecorded self session
                       then [TraceEvent t'] else [])
                   ++ (if httpRecorded self sig xhr
                       then [HttpEventRec
                               (httpEventOf self sig xhr d (trace_id t)
                                  (seg_id s))]
                       else []);
                 requestHeaders := requestHeaders w;
                 listeners := listeners w |}.
Proof.
  intros Hd Ht Hs Hh.
  destruct (outcomeTrace_defined sig xhr endTime t s rest h Hs Hh)
    as (t' & s' & Hout & Hs' & Htid & Hsid).
  exists t', s'. split; [exact Hout|]. split; [exact Hs'|].
  split; [exact Htid|]. split; [exact Hsid|].
  assert (Hids : forall e, attachTraceIds self (set_trace t' d) e =
                   Some (if enableXRay (context self)
                         then set_trace_ids (trace_id t) (seg_id s) e
                         else e)).
  { intros e. unfold attachTraceIds, isTracingEnabled.
    destruct (enableXRay (context self)); cbn;
      [rewrite Hs'; cbn; rewrite Htid, Hsid|]; reflexivity. }
  destruct sig; cbn in Hout; cbn [handle];
    unfold handleXhrLoadEvent, handleXhrErrorEvent, handleXhrAbortEvent,
      handleXhrTimeoutEvent, handleXhrDetailsOnError;
    rewrite Hd; cbn; rewrite Ht; cbn; rewrite Hout; cbn;
    unfold recordHttpEventWithResponse, recordHttpEventWithError;
    rewrite Hids; cbn;
    unfold recordTraceEvent, tracesRecorded, httpRecorded, httpEventOf;
    destruct (negb (isSyntheticsUA self) && isTracingEnabled self
              && isSessionRecorded session);
    try destruct (recordAllRequests (config self)
                  || negb (statusOk (status xhr)));
    destruct (enableXRay (context self));
    cbn; unfold contextRecord, set_xhrMap; cbn;
    rewrite <- ?app_assoc, ?app_nil_r; reflexivity.
Qed.

(** [sendWrapper] on a request that has a record. *)
Lemma sendWrapper_tracked session startTime rnd this w d :
  xhrMap w !! this = Some d ->
  sendWrapper self session startTime rnd this w =
    Some {| xhrMap := <[this := initializeTrace self startTime rnd d]>
                        (xhrMap w);
            recorded := recorded w;
            requestHeaders :=
              requestHeaders w
              ++ (if headerSet self session (url d)
                  then [(this, traceHeader self rnd)] else []);
            listeners :=
              {[ (this, "timeout"%string) ]} ∪
              ({[ (this, "abort"%string) ]} ∪
               ({[ (this, "error"%string) ]} ∪
                ({[ (this, "load"%string) ]} ∪ listeners w))) |}.
Proof.
  intros Hd. unfold sendWrapper, headerSet, traceHeader. rewrite Hd.
  change (url (initializeTrace self startTime rnd d)) with (url d).
  destruct (negb (isSyntheticsUA self) && isTracingEnabled self
            && addXRayTraceIdHeader self (url d)
            && isSessionRecorded session); cbn;
    [destruct (enableW3CTraceId (context self)); cbn|];
    unfold setRequestHeader, set_xhrMap, addEventListener; cbn;
    rewrite ?app_nil_r; reflexivity.
Qed.

Lemma initializeTrace_tracedAs startTime rnd d :
  exists t,
    trace (initializeTrace self startTime rnd d) = Some t
    /\ tracedAs (initializeTrace self startTime rnd d) t
    /\ trace_id t = (if enableW3CTraceId (context self)
                     then w3c_trace_id rnd else legacy_trace_id rnd)
    /\ name t = logicalServiceName (config self)
    /\ start_time t = startTime
    /\ exists s, subsegments t = [s] /\ seg_id s = subsegment_id rnd
                 /\ seg_start_time s = startTime
                 /\ seg_name s = requestInfoToHostname (url d).
Proof.
  destruct (initializeTrace_asSent self startTime rnd d) as (t & Ht & Hsent).
  exists t. split; [exact Ht|].
  cbn in Ht. injection Ht as <-.
  split; [split; [exact Hsent|]|].
  - do 2 eexists. repeat split; reflexivity.
  - repeat split. eexists. repeat split; reflexivity.
Qed.

(** X1. The life of one call, from [send] to its first completion signal:
    whatever the record held before, the header set at [send] (if any), the
    trace event (if any) and the HTTP event (if any, and if X-Ray is enabled)
    carry the same trace identifier and the same subsegment identifier,
    those drawn at [send]; the record is gone afterwards. *)
Theorem lifecycle_correlates_identifiers
    session startTime rnd sig session' endTime xhr w d :
  xhrMap w !! ref xhr = Some d ->
  exists w1 w2 t' s',
    sendWrapper self session startTime rnd (ref xhr) w = Some w1
    /\ handle self sig session' endTime xhr w1 = Some w2
    /\ xhrMap w2 !! ref xhr = None
    /\ requestHeaders w2 =
         requestHeaders w
         ++ (if headerSet self session (url d)
             then [(ref xhr, traceHeader self rnd)] else [])
    /\ recorded w2 =
         recorded w
         ++ (if tracesRecorded self session' then [TraceEvent t'] else [])
         ++ (if httpRecorded self sig xhr
             then [HttpEventRec
                     (httpEventOf self sig xhr d
                        (if enableW3CTraceId (context self)
                         then w3c_trace_id rnd else legacy_trace_id rnd)
                        (subsegment_id rnd))]
             else [])
    /\ trace_id t' = (if enableW3CTraceId (context self)
                      then w3c_trace_id rnd else legacy_trace_id rnd)
    /\ subsegments t' = [s'] /\ seg_id s' = subsegment_id rnd.
Proof.
  intros Hd.
  pose proof (sendWrapper_tracked session startTime rnd (ref xhr) w d Hd)
    as Hsend.
  destruct (initializeTrace_tracedAs startTime rnd d)
    as (t & Ht & [Hsent _] & Htid & _ & _ & s0 & Hs0 & Hsid & _).
  destruct (asSent_shape t Hsent) as (s & h & Hs & Hh & _).
  assert (s0 = s) as -> by congruence.
  set (w1 := {| xhrMap := <[ref xhr := initializeTrace self startTime rnd d]>
                            (xhrMap w);
                recorded := recorded w;
                requestHeaders :=
                  requestHeaders w
                  ++ (if headerSet self session (url d)
                      then [(ref xhr, traceHeader self rnd)] else []);
                listeners :=
                  {[ (ref xhr, "timeout"%string) ]} ∪
                  ({[ (ref xhr, "abort"%string) ]} ∪
                   ({[ (ref xhr, "error"%string) ]} ∪
                    ({[ (ref xhr, "load"%string) ]} ∪ listeners w))) |})
    in *.
  assert (xhrMap w1 !! ref xhr = Some (initializeTrace self startTime rnd d))
    as Hd1 by apply lookup_insert_eq.
  destruct (handle_sent_event sig session' endTime xhr w1 _ t s [] h
              Hd1 Ht Hs Hh) as (t' & s' & _ & Hs' & Htid' & Hsid' & Hw2).
  exists w1; eexists; exists t', s'.
  split; [exact Hsend|]. split; [exact Hw2|].
  cbn [xhrMap requestHeaders recorded].
  split; [apply lookup_delete_eq|]. split; [reflexivity|].
  rewrite Htid, Hsid.
  split; [reflexivity|]. split; [by rewrite Htid'|].
  split; [exact Hs'|by rewrite Hsid'].
Qed.

(** X2. A request opened with a URL that the filter rejects, and that has
    no record from before, is never tracked: opening it, sending it and any
    completion signal leave the state of the plugin, the sink, the request
    headers and the subscriptions exactly as they were. *)
Theorem filtered_out_call_is_inert
    m u a session startTime rnd sig xhr session' endTime w :
  isUrlAllowed u (config self) = false ->
  xhrMap w !! ref xhr = None ->
  run self [Open (ref xhr) m u a;
            Send (ref xhr) session startTime rnd;
            Fire sig xhr session' endTime] w = Some w.
Proof.
  intros Hurl Hd. cbn. unfold openWrapper. rewrite Hurl. cbn.
  rewrite sendWrapper_untracked by done. cbn.
  unfold dispatch. case_decide; [|done].
  by rewrite handle_absent.
Qed.

(** X3. A request that has been opened (with an accepted URL) and not sent
    since has a record without a trace, also when it was in flight before:
    a completion signal that reaches a handler then makes the handler throw,
    at its first write to the missing trace. *)
Theorem reopened_call_signal_throws
    m u a sig xhr session endTime w :
  isUrlAllowed u (config self) = true ->
  handle self sig session endTime xhr (openWrapper self (ref xhr) m u a w)
  = None.
Proof.
  intros Hurl.
  apply (handle_unsent self sig session endTime xhr _
           {| method := m; url := u; async := a; trace := None |});
    [|reflexivity].
  unfold openWrapper. rewrite Hurl. cbn. apply lookup_insert_eq.
Qed.

(** What a handler that returns has done: nothing, when the request had
    no record; otherwise the record held a trace, it is gone, and the sink has
    received at most one trace event and at most one HTTP event. *)
Lemma handle_cases sig session endTime xhr w w' :
  handle self sig session endTime xhr w = Some w' ->
  (xhrMap w !! ref xhr = None /\ w' = w)
  \/ exists d t evs,
       xhrMap w !! ref xhr = Some d /\ trace d = Some t
       /\ w' = {| xhrMap := delete (ref xhr) (xhrMap w);
                  recorded := recorded w ++ evs;
                  requestHeaders := requestHeaders w;
                  listeners := listeners w |}
       /\ (length (httpEvents evs) <= 1)%nat
       /\ (length (traceEvents evs) <= 1)%nat.
Proof.
  intros Hh.
  destruct (xhrMap w !! ref xhr) as [d|] eqn:Hd.
  - right. exists d.
    destruct (trace d) as [t|] eqn:Ht;
      [|by rewrite (handle_unsent self sig session endTime xhr w d) in Hh].
    exists t.
    destruct sig; cbn in Hh;
      unfold handleXhrLoadEvent, handleXhrErrorEvent, handleXhrAbortEvent,
        handleXhrTimeoutEvent, handleXhrDetailsOnError in Hh;
      rewrite Hd in Hh; cbn in Hh; rewrite Ht in Hh; cbn in Hh;
      match type of Hh with
      | context [loadTrace ?x ?e ?t] => destruct (loadTrace x e t)
      | context [errorTrace ?x ?e ?t] => destruct (errorTrace x e t)
      | context [detailsOnErrorTrace ?n ?e ?t] =>
          destruct (detailsOnErrorTrace n e t)
      end; [|done| |done| |done| |done]; cbn in Hh;
      unfold recordHttpEventWithResponse, recordHttpEventWithError in Hh;
      match type of Hh with
      | context [attachTraceIds ?s ?d ?e] => destruct (attachTraceIds s d e)
      end; [|done| |done| |done| |done]; cbn in Hh;
      unfold recordTraceEvent in Hh;
      destruct (negb (isSyntheticsUA self) && isTracingEnabled self
                && isSessionRecorded session);
      try destruct (recordAllRequests (config self)
                    || negb (statusOk (status xhr)));
      injection Hh as <-; unfold contextRecord, set_xhrMap; cbn;
      eexists; (split; [reflexivity|]); (split; [reflexivity|]);
      (split; [rewrite <- ?app_assoc; first [reflexivity|by rewrite app_nil_r]
              |cbn; lia]).
  - left. rewrite handle_absent in Hh by done. by injection Hh as <-.
Qed.

Lemma handle_frame sig session endTime xhr w w' :
  handle self sig session endTime xhr w = Some w' ->
  (forall y, y <> ref xhr -> xhrMap w' !! y = xhrMap w !! y)
  /\ xhrMap w' !! ref xhr = None
  /\ requestHeaders w' = requestHeaders w
  /\ listeners w' = listeners w
  /\ exists evs, recorded w' = recorded w ++ evs.
Proof.
  intros Hh.
  destruct (handle_cases sig session endTime xhr w w' Hh)
    as [[Hd ->]|(d & t & evs & Hd & _ & -> & _)].
  - split; [done|]. split; [done|]. split; [done|]. split; [done|].
    exists []. by rewrite app_nil_r.
  - cbn. split; [intros y Hy; by apply lookup_delete_ne|].
    split; [apply lookup_delete_eq|]. by eauto.
Qed.

(** X4. Whatever a handler does when it returns, it does to its own call:
    the records of all other requests, the request headers and the
    subscriptions are untouched, the sink only receives further events, and
    the handler's own record, if there was one, is gone. *)
Theorem signal_leaves_other_calls_alone sig session endTime xhr w w' :
  handle self sig session endTime xhr w = Some w' ->
  (forall y, y <> ref xhr -> xhrMap w' !! y = xhrMap w !! y)
  /\ xhrMap w' !! ref xhr = None
  /\ requestHeaders w' = requestHeaders w
  /\ listeners w' = listeners w
  /\ exists evs, recorded w' = recorded w ++ evs.
Proof.
  intros Hh.
  destruct (handle_cases sig session endTime xhr w w' Hh)
    as [[Hd ->]|(d & t & evs & Hd & _ & -> & _)].
  - repeat (split; [done|]). exists []. by rewrite app_nil_r.
  - cbn [xhrMap recorded requestHeaders listeners].
    split; [intros y Hy; by apply lookup_delete_ne|].
    split; [apply lookup_delete_eq|].
    split; [reflexivity|]. split; [reflexivity|]. by exists evs.
Qed.

(** Every handler stamps the same clock reading on the root and on the
    subsegment, and leaves the request information in place. *)
Lemma outcomeTrace_stamps sig xhr endTime t s rest h t' :
  subsegments t = s :: rest -> seg_http s = Some h ->
  outcomeTrace sig xhr endTime t = Some t' ->
  end_time t' = Some endTime
  /\ exists s' h',
       subsegments t' = s' :: rest
       /\ seg_end_time s' = Some endTime
       /\ seg_http s' = Some h' /\ http_request h' = http_request h.
Proof.
  intros Hs Hh. open_trace t s. destruct h as [hreq hresp].
  destruct sig; cbn;
    unfold loadTrace, errorTrace, detailsOnErrorTrace, on_subsegment0,
      on_http, on_response; cbn.
  - destruct (is429 (status xhr)), (is4xx (status xhr)), (is5xx (status xhr));
      cbn;
      (destruct (contentLength xhr) as [clStr|]; cbn;
       [destruct (truthy clStr); cbn; [destruct (parseInt clStr); cbn|]|]);
      intros [= <-]; (split; [reflexivity|]);
      do 2 eexists; repeat split; reflexivity.
  - intros [= <-]. split; [reflexivity|].
    do 2 eexists; repeat split; reflexivity.
  - intros [= <-]. split; [reflexivity|].
    do 2 eexists; repeat split; reflexivity.
  - intros [= <-]. split; [reflexivity|].
    do 2 eexists; repeat split; reflexivity.
Qed.

Lemma parseInt_falsy clStr : truthy clStr = false -> parseInt clStr = NaN.
Proof. by destruct clStr. Qed.

(** X5. On the load path the response written to the trace carries the
    status of the request, and as content length the number that [parseInt]
    reads from the Content-Length response header (a double: an integer
    beyond 2^53 is rounded, a very long one is infinite), exactly when there
    is such a header and that number is not NaN: a missing, empty or
    non-numeric header leaves [content_length] unset. *)
Theorem load_response_content_length session endTime xhr w d t :
  xhrMap w !! ref xhr = Some d -> trace d = Some t -> asSent t ->
  exists w' evs t' s' h' r,
    handleXhrLoadEvent self session endTime xhr w = Some w'
    /\ recorded w' = recorded w ++ evs
    /\ traceEvents evs = (if tracesRecorded self session then [t'] else [])
    /\ subsegments t' = [s']
    /\ seg_http s' = Some h' /\ http_response h' = Some r
    /\ resp_status r = status xhr
    /\ (forall n,
          resp_content_length r = Some n <->
          exists clStr, contentLength xhr = Some clStr
                        /\ parseInt clStr = n /\ n <> NaN)
    /\ (contentLength xhr = None -> resp_content_length r = None).
Proof.
  intros Hd Ht Hsent.
  destruct (asSent_shape t Hsent) as (s & h & Hs & Hh & _).
  destruct (handle_sent self Load session endTime xhr w d t s [] h Hd Ht Hs Hh)
    as (t' & e & Hout & Hw & _).
  cbn in Hout, Hw.
  assert (exists s' r,
            subsegments t' = [s']
            /\ seg_http s' = Some (set_http_response r h)
            /\ resp_status r = status xhr
            /\ resp_content_length r =
                 match contentLength xhr with
                 | Some clStr =>
                     if isNaN (parseInt clStr) then None
                     else Some (parseInt clStr)
                 | None => None
                 end) as (s' & r & Hs' & Hh' & Hst & Hcl).
  { revert Hout. clear Hw. open_trace t s. destruct h as [hreq hresp].
    unfold loadTrace, on_subsegment0, on_http, on_response; cbn.
    destruct (is429 (status xhr)), (is4xx (status xhr)),
      (is5xx (status xhr)); cbn;
      (destruct (contentLength xhr) as [clStr|]; cbn;
       [destruct (truthy clStr) eqn:Htr; cbn;
        [destruct (parseInt clStr) eqn:Hp; cbn
        |apply parseInt_falsy in Htr; rewrite Htr; cbn]|]);
      intros [= <-]; do 2 eexists; repeat split; reflexivity. }
  eexists; eexists; exists t', s', (set_http_response r h), r.
  split; [exact Hw|]. cbn.
  split; [reflexivity|]. rewrite traceEvents_emitted.
  split; [reflexivity|]. split; [exact Hs'|]. split; [exact Hh'|].
  split; [reflexivity|]. split; [exact Hst|].
  rewrite Hcl. destruct (contentLength xhr) as [clStr|].
  - split; [|done]. intros n. split.
    + intros Hn. exists clStr. split; [done|].
      destruct (parseInt clStr); cbn in Hn; [done| |];
        injection Hn as <-; by split.
    + intros (? & [= <-] & <- & Hnan).
      by destruct (parseInt clStr).
  - split; [|done]. intros n. split; [done|]. by intros (? & ? & ?).
Qed.

(** X6. On the network-error path the trace is flagged [fault] on the root
    and on the subsegment, and nothing else; it carries no response. The
    HTTP event is always recorded, with an error built from an [XhrError]
    whose message is that of the cause, and without a response. *)
Theorem network_error_outcome session endTime xhr w d t :
  xhrMap w !! ref xhr = Some d -> trace d = Some t -> asSent t ->
  exists w' evs t' s' h' e,
    handleXhrErrorEvent self session endTime xhr w = Some w'
    /\ recorded w' = recorded w ++ evs
    /\ traceEvents evs = (if tracesRecorded self session then [t'] else [])
    /\ subsegments t' = [s']
    /\ rootFlags t' = (None, None, Some true)
    /\ subsegmentFlags s' = (None, None, Some true)
    /\ seg_http s' = Some h' /\ http_response h' = None
    /\ httpEvents evs = [e]
    /\ response e = None
    /\ ev_error e =
         Some (errorEventToJsErrorEvent (XhrError (errorMessage xhr))
                 (stackTraceLength (config self))).
Proof.
  intros Hd Ht Hsent.
  destruct (asSent_shape t Hsent)
    as (s & h & Hs & Hh & Hresp & _ & Hroot & Hseg).
  destruct (handle_sent_event Error session endTime xhr w d t s [] h
              Hd Ht Hs Hh) as (t' & s' & Hout & Hs' & _ & _ & Hw).
  destruct (errorTrace_writes xhr endTime t s [] Hs)
    as (t'' & s'' & Hout' & Hs'' & Hh' & _ & _ & _ & Hrf & Hsf).
  cbn [outcomeTrace handle] in Hout, Hw.
  rewrite Hout in Hout'. injection Hout' as <-.
  assert (s'' = s') as -> by congruence.
  injection Hroot as Hth Her _. injection Hseg as Hsth Hser _.
  rewrite Hth, Her in Hrf. rewrite Hsth, Hser in Hsf.
  eexists; eexists; exists t', s', h; eexists.
  split; [exact Hw|]. cbn [recorded].
  split; [reflexivity|].
  rewrite traceEvents_emitted, httpEvents_emitted.
  split; [reflexivity|]. split; [exact Hs'|]. split; [exact Hrf|].
  split; [exact Hsf|]. split; [by rewrite Hh'|]. split; [exact Hresp|].
  split; [reflexivity|]. split; reflexivity.
Qed.

(** X7. On the abort and timeout paths only the subsegment is flagged: it
    carries [error] and no other flag, while the root of the trace carries
    no flag at all. *)
Theorem abort_timeout_flags_subsegment_only
    sig session endTime xhr w d t :
  sig = Abort \/ sig = Timeout ->
  xhrMap w !! ref xhr = Some d -> trace d = Some t -> asSent t ->
  exists w' evs t' s',
    handle self sig session endTime xhr w = Some w'
    /\ recorded w' = recorded w ++ evs
    /\ traceEvents evs = (if tracesRecorded self session then [t'] else [])
    /\ subsegments t' = [s']
    /\ rootFlags t' = (None, None, None)
    /\ subsegmentFlags s' = (None, Some true, None).
Proof.
  intros Hsig Hd Ht Hsent.
  destruct (asSent_shape t Hsent)
    as (s & h & Hs & Hh & _ & _ & Hroot & Hseg).
  destruct (handle_sent self sig session endTime xhr w d t s [] h Hd Ht Hs Hh)
    as (t' & e & Hout & Hw & _).
  destruct (detailsOnErrorTrace_writes (errorNameOf sig) endTime t s [] Hs)
    as (t'' & s' & Hout' & Hs' & _ & _ & _ & _ & Hrf & Hsf).
  assert (outcomeTrace sig xhr endTime t
          = detailsOnErrorTrace (errorNameOf sig) endTime t) as Heq
    by (by destruct Hsig as [-> | ->]).
  rewrite Heq, Hout' in Hout. injection Hout as <-.
  rewrite Hroot in Hrf. injection Hseg as Hsth _ Hsfa.
  rewrite Hsth, Hsfa in Hsf.
  eexists; eexists; exists t'', s'. split; [exact Hw|]. cbn.
  split; [reflexivity|]. rewrite traceEvents_emitted.
  split; [reflexivity|]. by split.
Qed.

End Steps.

(** ** Further properties: runs *)

Section Runs.

Context `{Imports}.

Variable (self : Plugin).

Lemma subscribed_mono (x : positive) (ls ls' : gset (positive * string)) :
  ls ⊆ ls' -> subscribed x ls -> subscribed x ls'.
Proof. intros Hsub Hx sig. apply Hsub, Hx. Qed.

Lemma recordsTracked_init : recordsTracked self emptyWorld.
Proof. intros x d Hd. cbn in Hd. by rewrite lookup_empty in Hd. Qed.

Lemma recordsTracked_openWrapper this m u a w :
  recordsTracked self w ->
  recordsTracked self (openWrapper self this m u a w).
Proof.
  intros Hinv. unfold openWrapper.
  destruct (isUrlAllowed u (config self)) eqn:Hurl; [|done].
  intros x d Hd. cbn in Hd.
  destruct (decide (this = x)) as [->|Hne].
  - rewrite lookup_insert_eq in Hd. injection Hd as <-. by split.
  - rewrite lookup_insert_ne in Hd by done. by apply Hinv.
Qed.

Lemma recordsTracked_sendWrapper session startTime rnd this w w' :
  recordsTracked self w ->
  sendWrapper self session startTime rnd this w = Some w' ->
  recordsTracked self w'.
Proof.
  intros Hinv Hsend.
  destruct (xhrMap w !! this) as [d|] eqn:Hd.
  - rewrite (sendWrapper_tracked self session startTime rnd this w d Hd)
      in Hsend.
    injection Hsend as <-. intros x d' Hd'. cbn in Hd'.
    destruct (decide (this = x)) as [->|Hne].
    + rewrite lookup_insert_eq in Hd'. injection Hd' as <-.
      split; [by apply (Hinv x d)|].
      intros t Ht.
      destruct (initializeTrace_tracedAs self startTime rnd d)
        as (t0 & Ht0 & Htr & _).
      assert (t0 = t) as -> by congruence.
      split; [exact Htr|].
      intros sig. cbn [listeners].
      destruct sig; cbn [signalName];
        repeat first [ by apply elem_of_union_l, elem_of_singleton
                     | apply elem_of_union_r ].
    + rewrite lookup_insert_ne in Hd' by done.
      destruct (Hinv x d' Hd') as [Hurl Htr]. split; [exact Hurl|].
      intros t Ht. destruct (Htr t Ht) as [Hta Hsub]. split; [exact Hta|].
      eapply subscribed_mono; [|exact Hsub]. cbn [listeners].
      intros p Hp. by do 4 apply elem_of_union_r.
  - rewrite sendWrapper_untracked in Hsend by done.
    by injection Hsend as <-.
Qed.

Lemma recordsTracked_handle sig session endTime xhr w w' :
  recordsTracked self w ->
  handle self sig session endTime xhr w = Some w' ->
  recordsTracked self w'.
Proof.
  intros Hinv Hh.
  destruct (handle_frame self sig session endTime xhr w w' Hh)
    as (Hother & Hgone & _ & Hls & _).
  intros x d Hd.
  destruct (decide (x = ref xhr)) as [->|Hne]; [congruence|].
  rewrite Hother in Hd by done. rewrite Hls. by apply Hinv.
Qed.

Lemma reachable_recordsTracked w :
  reachable self w -> recordsTracked self w.
Proof.
  induction 1 as [|a w w' _ IH Hstep]; [apply recordsTracked_init|].
  destruct a as [this m u a|this session startTime rnd|sig xhr session endTime];
    cbn in Hstep.
  - injection Hstep as <-. by apply recordsTracked_openWrapper.
  - by eapply recordsTracked_sendWrapper.
  - unfold dispatch in Hstep. case_decide.
    + by eapply recordsTracked_handle.
    + by injection Hstep as <-.
Qed.

(** A property of everything the sink receives follows from the same
    property of what one handler records for one tracked, sent call. *)
Lemma reachable_recorded (P : Recorded -> Prop) :
  (forall sig session endTime xhr d t s t',
     isUrlAllowed (url d) (config self) = true ->
     tracedAs d t -> subsegments t = [s] ->
     outcomeTrace sig xhr endTime t = Some t' ->
     (tracesRecorded self session = true -> P (TraceEvent t'))
     /\ (httpRecorded self sig xhr = true ->
         P (HttpEventRec
              (httpEventOf self sig xhr d (trace_id t) (seg_id s))))) ->
  forall w, reachable self w -> Forall P (recorded w).
Proof.
  intros HP w Hreach.
  induction Hreach as [|a w w' Hreach IH Hstep]; [by constructor|].
  pose proof (reachable_recordsTracked w Hreach) as Hinv.
  destruct a as [this m u a|this session startTime rnd|sig xhr session endTime];
    cbn in Hstep.
  - injection Hstep as <-. unfold openWrapper.
    by destruct (isUrlAllowed u (config self)).
  - destruct (xhrMap w !! this) as [d|] eqn:Hd.
    + rewrite (sendWrapper_tracked self session startTime rnd this w d Hd)
        in Hstep. by injection Hstep as <-.
    + rewrite sendWrapper_untracked in Hstep by done.
      by injection Hstep as <-.
  - unfold dispatch in Hstep. case_decide; [|by injection Hstep as <-].
    destruct (xhrMap w !! ref xhr) as [d|] eqn:Hd.
    + destruct (trace d) as [t|] eqn:Ht.
      * destruct (Hinv _ _ Hd) as [Hurl Htr].
        destruct (Htr t Ht) as [Hta _].
        destruct (asSent_shape t (proj1 Hta)) as (s & h & Hs & Hsh & _).
        destruct (handle_sent_event self sig session endTime xhr w d t s []
                    h Hd Ht Hs Hsh) as (t' & s' & Hout & _ & _ & _ & Hw).
        rewrite Hw in Hstep. injection Hstep as <-. cbn [recorded].
        destruct (HP sig session endTime xhr d t s t' Hurl Hta Hs Hout)
          as [HPt HPe].
        apply Forall_app. split; [exact IH|].
        apply Forall_app. split.
        -- destruct (tracesRecorded self session); [|by constructor].
           constructor; [by apply HPt|by constructor].
        -- destruct (httpRecorded self sig xhr); [|by constructor].
           constructor; [by apply HPe|by constructor].
      * by rewrite (handle_unsent self sig session endTime xhr w d) in Hstep.
    + rewrite handle_absent in Hstep by done. by injection Hstep as <-.
Qed.

(** The same for the headers set on requests. *)
Lemma reachable_requestHeaders (Q : positive * (string * string) -> Prop) :
  (forall this session rnd d,
     isUrlAllowed (url d) (config self) = true ->
     headerSet self session (url d) = true ->
     Q (this, traceHeader self rnd)) ->
  forall w, reachable self w -> Forall Q (requestHeaders w).
Proof.
  intros HQ w Hreach.
  induction Hreach as [|a w w' Hreach IH Hstep]; [by constructor|].
  pose proof (reachable_recordsTracked w Hreach) as Hinv.
  destruct a as [this m u a|this session startTime rnd|sig xhr session endTime];
    cbn in Hstep.
  - injection Hstep as <-. unfold openWrapper.
    by destruct (isUrlAllowed u (config self)).
  - destruct (xhrMap w !! this) as [d|] eqn:Hd.
    + rewrite (sendWrapper_tracked self session startTime rnd this w d Hd)
        in Hstep. injection Hstep as <-. cbn [requestHeaders].
      apply Forall_app. split; [exact IH|].
      destruct (headerSet self session (url d)) eqn:Hset; [|by constructor].
      constructor; [|by constructor].
      apply (HQ this session rnd d); [|done]. by apply (Hinv this d).
    + rewrite sendWrapper_untracked in Hstep by done.
      by injection Hstep as <-.
  - unfold dispatch in Hstep. case_decide; [|by injection Hstep as <-].
    destruct (handle_frame self sig session endTime xhr w w' Hstep)
      as (_ & _ & -> & _). exact IH.
Qed.

Lemma reachable_recorded_elem (P : Recorded -> Prop) :
  (forall sig session endTime xhr d t s t',
     isUrlAllowed (url d) (config self) = true ->
     tracedAs d t -> subsegments t = [s] ->
     outcomeTrace sig xhr endTime t = Some t' ->
     (tracesRecorded self session = true -> P (TraceEvent t'))
     /\ (httpRecorded self sig xhr = true ->
         P (HttpEventRec
              (httpEventOf self sig xhr d (trace_id t) (seg_id s))))) ->
  forall w r, reachable self w -> r ∈ recorded w -> P r.
Proof.
  intros HP w r Hreach.
  pose proof (reachable_recorded P HP w Hreach) as Hall.
  rewrite Forall_forall in Hall. apply Hall.
Qed.

Lemma reachable_requestHeaders_elem
    (Q : positive * (string * string) -> Prop) :
  (forall this session rnd d,
     isUrlAllowed (url d) (config self) = true ->
     headerSet self session (url d) = true ->
     Q (this, traceHeader self rnd)) ->
  forall w p, reachable self w -> p ∈ requestHeaders w -> Q p.
Proof.
  intros HQ w p Hreach.
  pose proof (reachable_requestHeaders Q HQ w Hreach) as Hall.
  rewrite Forall_forall in Hall. apply Hall.
Qed.

Lemma elem_of_traceEvents t (l : list Recorded) :
  t ∈ traceEvents l <-> TraceEvent t ∈ l.
Proof.
  unfold traceEvents. rewrite list_elem_of_omap. split.
  - intros ([t0|e] & Hin & Heq); [|done]. by injection Heq as ->.
  - intros Hin. by exists (TraceEvent t).
Qed.

Lemma elem_of_httpEvents e (l : list Recorded) :
  e ∈ httpEvents l <-> HttpEventRec e ∈ l.
Proof.
  unfold httpEvents. rewrite list_elem_of_omap. split.
  - intros ([t|e0] & Hin & Heq); [done|]. by injection Heq as ->.
  - intros Hin. by exists (HttpEventRec e).
Qed.

(** X8. In every run, each HTTP event handed to the sink has version
    "1.0.0" and carries either a response and no error, or an error and no
    response; it carries a trace identifier and a segment identifier when
    X-Ray is enabled, also when no trace event is recorded, and neither of
    them when X-Ray is disabled. *)
Theorem http_events_well_formed w e :
  reachable self w -> e ∈ httpEvents (recorded w) ->
  version e = "1.0.0"%string
  /\ ((is_Some (response e) /\ ev_error e = None)
      \/ (response e = None /\ is_Some (ev_error e)))
  /\ (enableXRay (context self) = true ->
      is_Some (ev_trace_id e) /\ is_Some (ev_segment_id e))
  /\ (enableXRay (context self) = false ->
      ev_trace_id e = None /\ ev_segment_id e = None).
Proof.
  intros Hreach Hin. apply elem_of_httpEvents in Hin.
  revert Hin.
  apply (reachable_recorded_elem
    (fun r => match r with
              | TraceEvent _ => True
              | HttpEventRec e =>
                  version e = "1.0.0"%string
                  /\ ((is_Some (response e) /\ ev_error e = None)
                      \/ (response e = None /\ is_Some (ev_error e)))
                  /\ (enableXRay (context self) = true ->
                      is_Some (ev_trace_id e) /\ is_Some (ev_segment_id e))
                  /\ (enableXRay (context self) = false ->
                      ev_trace_id e = None /\ ev_segment_id e = None)
              end)); [|exact Hreach].
  intros sig session endTime xhr d t s t' _ _ _ _.
  split; [done|]. intros _. unfold httpEventOf. cbn.
  split; [reflexivity|].
  split; [destruct sig; cbn; by eauto|].
  destruct (enableXRay (context self)); by split.
Qed.

(** X9. In every run, each trace handed to the sink has been stamped once,
    with one clock reading: the end time of its root equals the end time of
    its single subsegment. *)
Theorem emitted_traces_stamped w t :
  reachable self w -> t ∈ traceEvents (recorded w) ->
  exists e s,
    end_time t = Some e /\ subsegments t = [s] /\ seg_end_time s = Some e.
Proof.
  intros Hreach Hin. apply elem_of_traceEvents in Hin.
  revert Hin.
  apply (reachable_recorded_elem
    (fun r => match r with
              | TraceEvent t =>
                  exists e s, end_time t = Some e /\ subsegments t = [s]
                              /\ seg_end_time s = Some e
              | HttpEventRec _ => True
              end)); [|exact Hreach].
  intros sig session endTime xhr d t0 s t' _ Htr Hs Hout.
  split; [intros _|done].
  destruct (asSent_shape t0 (proj1 Htr)) as (s0 & h & Hs0 & Hh & _).
  destruct (outcomeTrace_stamps sig xhr endTime t0 s0 [] h t' Hs0 Hh Hout)
    as (He & s' & h' & Hs' & Hse & _).
  by exists endTime, s'.
Qed.

(** X10. In every run, the URL filter is in force on everything recorded:
    the URL of each HTTP event, and the URL of the request in each trace,
    passed [isUrlAllowed]; the request of a trace is marked traced. *)
Theorem only_allowed_urls_recorded w :
  reachable self w ->
  (forall e, e ∈ httpEvents (recorded w) ->
     isUrlAllowed (ev_url (request e)) (config self) = true)
  /\ (forall t, t ∈ traceEvents (recorded w) ->
        exists r, tracedRequest t = Some r
                  /\ req_traced r = true
                  /\ isUrlAllowed (req_url r) (config self) = true).
Proof.
  intros Hreach.
  assert (forall r, r ∈ recorded w ->
            match r with
            | TraceEvent t =>
                exists r, tracedRequest t = Some r
                          /\ req_traced r = true
                          /\ isUrlAllowed (req_url r) (config self) = true
            | HttpEventRec e =>
                isUrlAllowed (ev_url (request e)) (config self) = true
            end) as Hr.
  { intros r Hin. revert Hin.
    apply (reachable_recorded_elem
      (fun r => match r with
                | TraceEvent t =>
                    exists r, tracedRequest t = Some r
                              /\ req_traced r = true
                              /\ isUrlAllowed (req_url r) (config self) = true
                | HttpEventRec e =>
                    isUrlAllowed (ev_url (request e)) (config self) = true
                end)); [|exact Hreach].
    intros sig session endTime xhr d t s t' Hurl Htr Hs Hout.
    split; [intros _|intros _; exact Hurl].
    destruct Htr as (Hsent & s0 & h & Hs0 & Hh & Hreq).
    destruct (outcomeTrace_stamps sig xhr endTime t s0 [] h t'
                Hs0 Hh Hout) as (_ & s' & h' & Hs' & _ & Hh' & Hreq').
    eexists. unfold tracedRequest. rewrite Hs'. cbn. rewrite Hh'. cbn.
    rewrite Hreq', Hreq. by repeat split. }
  split.
  - intros e He. apply elem_of_httpEvents in He. exact (Hr _ He).
  - intros t Ht. apply elem_of_traceEvents in Ht. exact (Hr _ Ht).
Qed.

(** X11. When the user agent is a synthetics agent, or X-Ray is disabled,
    no run ever records a trace event or sets a trace header. *)
Theorem no_tracing_when_disabled w :
  isSyntheticsUA self = true \/ enableXRay (context self) = false ->
  reachable self w ->
  traceEvents (recorded w) = [] /\ requestHeaders w = [].
Proof.
  intros Hoff Hreach.
  assert (forall session, tracesRecorded self session = false) as Hnt.
  { intros session. unfold tracesRecorded, isTracingEnabled.
    by destruct Hoff as [-> | ->]; [|rewrite andb_false_r]. }
  assert (forall session u, headerSet self session u = false) as Hnh.
  { intros session u. unfold headerSet, isTracingEnabled.
    by destruct Hoff as [-> | ->]; [|rewrite andb_false_r]. }
  split.
  - destruct (traceEvents (recorded w)) as [|t l] eqn:Hl; [done|].
    assert (t ∈ traceEvents (recorded w)) as Hin by (rewrite Hl; left).
    apply elem_of_traceEvents in Hin. exfalso. revert Hin.
    apply (reachable_recorded_elem
      (fun r => match r with TraceEvent _ => False | _ => True end));
      [|exact Hreach].
    intros sig session endTime xhr d t0 s t' _ _ _ _.
    split; [|done]. intros Hrec. by rewrite Hnt in Hrec.
  - destruct (requestHeaders w) as [|p l] eqn:Hl; [done|].
    assert (p ∈ requestHeaders w) as Hin by (rewrite Hl; left).
    exfalso. revert Hin.
    apply (reachable_requestHeaders_elem (fun _ => False)); [|exact Hreach].
    intros this session rnd d _ Hset. by rewrite Hnh in Hset.
Qed.

(** X12. In every run, all trace headers bear one name, the one that the
    format flag selects: [traceparent] when the W3C format is enabled and
    [X-Amzn-Trace-Id] otherwise; no run sets both. Each was set for a
    recorded session, with X-Ray enabled, by a user agent that is not a
    synthetics agent. *)
Theorem header_names_follow_format w x header value :
  reachable self w -> (x, (header, value)) ∈ requestHeaders w ->
  header = (if enableW3CTraceId (context self)
            then "traceparent" else "X-Amzn-Trace-Id")%string
  /\ isSyntheticsUA self = false
  /\ enableXRay (context self) = true.
Proof.
  intros Hreach Hin. revert Hin.
  apply (reachable_requestHeaders_elem
    (fun p => p.2.1 = (if enableW3CTraceId (context self)
                       then "traceparent" else "X-Amzn-Trace-Id")%string
              /\ isSyntheticsUA self = false
              /\ enableXRay (context self) = true)); [|exact Hreach].
  intros this session rnd d _ Hset.
  unfold headerSet, isTracingEnabled in Hset. unfold traceHeader. cbn.
  destruct (isSyntheticsUA self), (enableXRay (context self)); try done.
  by destruct (enableW3CTraceId (context self)).
Qed.

(** X13. In every run, a call that has been sent and has not completed is
    under observation, and its completion is handled: any of the four
    signals reaches its handler, the handler does not throw, the record is
    consumed, and a further signal for the same request changes nothing. *)
Theorem sent_call_completion_is_handled
    w d sig session endTime xhr :
  reachable self w ->
  xhrMap w !! ref xhr = Some d -> is_Some (trace d) ->
  exists w',
    dispatch self sig session endTime xhr w = Some w'
    /\ xhrMap w' !! ref xhr = None
    /\ forall sig' session' endTime' xhr',
         ref xhr' = ref xhr ->
         dispatch self sig' session' endTime' xhr' w' = Some w'.
Proof.
  intros Hreach Hd [t Ht].
  destruct (reachable_recordsTracked w Hreach _ _ Hd) as [_ Htr].
  destruct (Htr t Ht) as [Hta Hsub].
  destruct (asSent_shape t (proj1 Hta)) as (s & h & Hs & Hh & _).
  destruct (handle_sent self sig session endTime xhr w d t s [] h Hd Ht Hs Hh)
    as (t' & e & _ & Hw & _).
  eexists. unfold dispatch at 1.
  rewrite decide_True by apply Hsub.
  split; [exact Hw|]. cbn [xhrMap].
  split; [apply lookup_delete_eq|].
  intros sig' session' endTime' xhr' Href. unfold dispatch.
  case_decide; [|done].
  apply handle_absent. cbn. rewrite Href. apply lookup_delete_eq.
Qed.

(** *** Counting *)

Lemma inFlight_insert_le (x : positive) (d : XhrDetails)
    (m : gmap positive XhrDetails) :
  (size (inFlight (<[x := d]> m)) <= S (size (inFlight m)))%nat.
Proof.
  unfold inFlight. rewrite map_filter_insert. case_decide.
  - rewrite map_size_insert. destruct (filter _ m !! x); cbn; lia.
  - rewrite map_filter_delete, map_size_delete.
    destruct (filter _ m !! x); cbn; lia.
Qed.

Lemma inFlight_insert_untraced (x : positive) (d : XhrDetails)
    (m : gmap positive XhrDetails) :
  trace d = None ->
  (size (inFlight (<[x := d]> m)) <= size (inFlight m))%nat.
Proof.
  intros Ht. unfold inFlight.
  rewrite map_filter_insert_False by (cbn; rewrite Ht; by intros [? ?]).
  rewrite map_filter_delete, map_size_delete.
  destruct (filter _ m !! x); cbn; lia.
Qed.

Lemma inFlight_delete_traced (x : positive) (d : XhrDetails)
    (m : gmap positive XhrDetails) :
  m !! x = Some d -> is_Some (trace d) ->
  S (size (inFlight (delete x m))) = size (inFlight m).
Proof.
  intros Hd Ht. unfold inFlight.
  assert (filter (fun kd => is_Some (trace kd.2)) m !! x = Some d) as Hf
    by (by apply map_lookup_filter_Some).
  rewrite map_filter_delete, map_size_delete, Hf. cbn.
  assert (size (filter (fun kd => is_Some (trace kd.2)) m) <> 0%nat) as Hne.
  { intros Hz. apply map_size_empty_inv in Hz. by rewrite Hz in Hf. }
  lia.
Qed.

Lemma httpEvents_app (l1 l2 : list Recorded) :
  httpEvents (l1 ++ l2) = httpEvents l1 ++ httpEvents l2.
Proof. apply omap_app. Qed.

(** One action: what it adds to the sink and to the headers is paid for
    by a call leaving flight or by the action being a [send]. *)
Lemma perform_counts a w w' :
  perform self a w = Some w' ->
  let paid := ((if isSend a then 1 else 0) + size (inFlight (xhrMap w)))%nat in
  (length (httpEvents (recorded w')) + size (inFlight (xhrMap w'))
   <= length (httpEvents (recorded w)) + paid)%nat
  /\ (length (traceEvents (recorded w')) + size (inFlight (xhrMap w'))
      <= length (traceEvents (recorded w)) + paid)%nat
  /\ (length (requestHeaders w')
      <= length (requestHeaders w) + (if isSend a then 1 else 0))%nat.
Proof.
  intros Hstep. cbn zeta.
  destruct a as [this m u a|this session startTime rnd|sig xhr session endTime];
    cbn in Hstep; cbn [isSend].
  - injection Hstep as <-. unfold openWrapper.
    destruct (isUrlAllowed u (config self)); [|lia].
    unfold set_xhrMap; cbn [xhrMap recorded requestHeaders].
    pose proof (inFlight_insert_untraced this
                  {| method := m; url := u; async := a; trace := None |}
                  (xhrMap w) eq_refl). lia.
  - destruct (xhrMap w !! this) as [d|] eqn:Hd.
    + rewrite (sendWrapper_tracked self session startTime rnd this w d Hd)
        in Hstep. injection Hstep as <-.
      cbn [xhrMap recorded requestHeaders].
      pose proof (inFlight_insert_le this
                    (initializeTrace self startTime rnd d) (xhrMap w)).
      rewrite length_app.
      destruct (headerSet self session (url d)); cbn; lia.
    + rewrite sendWrapper_untracked in Hstep by done.
      injection Hstep as <-. lia.
  - unfold dispatch in Hstep. case_decide; [|injection Hstep as <-; lia].
    destruct (handle_cases self sig session endTime xhr w w' Hstep)
      as [[_ ->]|(d & t & evs & Hd & Ht & -> & Hhttp & Htrace)]; [lia|].
    cbn [xhrMap recorded requestHeaders].
    pose proof (inFlight_delete_traced (ref xhr) d (xhrMap w) Hd
                  (ex_intro _ t Ht)).
    rewrite httpEvents_app, traceEvents_app, !length_app. lia.
Qed.

(** In a reachable world the only step that throws is a completion signal
    that reaches the handler of a record without a trace. *)
Lemma throw_only_unsent a w :
  reachable self w -> perform self a w = None ->
  exists sig xhr session endTime d,
    a = Fire sig xhr session endTime
    /\ xhrMap w !! ref xhr = Some d /\ trace d = None.
Proof.
  intros Hreach Hstep.
  destruct a as [this m u a|this session startTime rnd|sig xhr session endTime];
    cbn in Hstep; [done| |].
  - destruct (xhrMap w !! this) as [d|] eqn:Hd.
    + by rewrite (sendWrapper_tracked self session startTime rnd this w d Hd)
        in Hstep.
    + by rewrite sendWrapper_untracked in Hstep.
  - unfold dispatch in Hstep. case_decide; [|done].
    destruct (xhrMap w !! ref xhr) as [d|] eqn:Hd;
      [|by rewrite handle_absent in Hstep].
    destruct (trace d) as [t|] eqn:Ht; [|by exists sig, xhr, session, endTime, d].
    destruct (reachable_recordsTracked w Hreach _ _ Hd) as [_ Htr].
    destruct (Htr t Ht) as [Hta _].
    destruct (asSent_shape t (proj1 Hta)) as (s & h & Hs & Hh & _).
    destruct (handle_sent self sig session endTime xhr w d t s [] h
                Hd Ht Hs Hh) as (t' & e & _ & Hw & _).
    by rewrite Hw in Hstep.
Qed.

Lemma step_reachable a w : reachable self w -> reachable self (step self a w).
Proof.
  intros Hreach. unfold step.
  destruct (perform self a w) as [w'|] eqn:Hstep; [|done].
  by apply (reachable_step self a w).
Qed.

(** The worlds of the runs with throwing handlers are the reachable
    worlds. *)
Lemma exec_reachable l w : reachable self w -> reachable self (exec self l w).
Proof.
  revert w. induction l as [|a l IH]; intros w Hreach; [done|].
  cbn. by apply IH, step_reachable.
Qed.

Lemma run_exec l w w' : run self l w = Some w' -> exec self l w = w'.
Proof.
  revert w. induction l as [|a l IH]; intros w Hrun; cbn in Hrun.
  - by injection Hrun as <-.
  - cbn. unfold step.
    destruct (perform self a w) as [w1|]; [|done]. by apply IH.
Qed.

Lemma exec_counts l w :
  (length (httpEvents (recorded (exec self l w)))
   + size (inFlight (xhrMap (exec self l w)))
   <= length (httpEvents (recorded w)) + sends l
      + size (inFlight (xhrMap w)))%nat
  /\ (length (traceEvents (recorded (exec self l w)))
      + size (inFlight (xhrMap (exec self l w)))
      <= length (traceEvents (recorded w)) + sends l
         + size (inFlight (xhrMap w)))%nat
  /\ (length (requestHeaders (exec self l w))
      <= length (requestHeaders w) + sends l)%nat.
Proof.
  revert w. induction l as [|a l IH]; intros w.
  - unfold sends. cbn. lia.
  - cbn [exec].
    assert (sends (a :: l) = ((if isSend a then 1 else 0) + sends l)%nat)
      as -> by (unfold sends; cbn; by destruct (isSend a)).
    destruct (perform self a w) as [w1|] eqn:Hstep.
    + assert (step self a w = w1) as -> by (unfold step; by rewrite Hstep).
      destruct (IH w1) as (I1 & I2 & I3).
      destruct (perform_counts a w w1 Hstep) as (H1 & H2 & H3).
      cbn zeta in H1, H2. lia.
    + assert (step self a w = w) as -> by (unfold step; by rewrite Hstep).
      destruct (IH w) as (I1 & I2 & I3). lia.
Qed.

(** X14. In every run that starts from the fresh plugin, also one in which
    handlers throw along the way, the sink never receives more HTTP events,
    nor more trace events, than there were calls of [send], and no more
    trace headers are set than there were calls of [send]: a call is
    reported at most once per [send], however many completion signals
    arrive. *)
Theorem events_bounded_by_sends l :
  (length (httpEvents (recorded (exec self l emptyWorld))) <= sends l)%nat
  /\ (length (traceEvents (recorded (exec self l emptyWorld))) <= sends l)%nat
  /\ (length (requestHeaders (exec self l emptyWorld)) <= sends l)%nat.
Proof.
  destruct (exec_counts l emptyWorld) as (H1 & H2 & H3).
  assert (size (inFlight (xhrMap emptyWorld)) = 0%nat) as Hz
    by (unfold inFlight; cbn [emptyWorld xhrMap];
        by rewrite map_filter_empty, map_size_empty).
  assert (length (httpEvents (recorded emptyWorld)) = 0%nat) as Hh by done.
  assert (length (traceEvents (recorded emptyWorld)) = 0%nat) as Ht by done.
  assert (length (requestHeaders emptyWorld) = 0%nat) as Hr by done.
  rewrite Hz, Hh in H1. rewrite Hz, Ht in H2. rewrite Hr in H3. lia.
Qed.

End Runs.

(** ** The properties on the sample call *)

Import Scenario.

Lemma run_reachable self l w w' :
  reachable self w -> run self l w = Some w' -> reachable self w'.
Proof.
  revert w. induction l as [|a l IH]; intros w Hw Hrun; cbn in Hrun.
  - by injection Hrun as <-.
  - destruct (perform self a w) as [w1|] eqn:Hstep; [|done].
    apply (IH w1); [|done]. by apply (reachable_step self a w).
Qed.

Ltac sample_asSent :=
  repeat split; eexists; (split; [reflexivity|]);
  repeat split; eexists; split; reflexivity.

(** A timed-out call: the record is consumed. *)
Lemma first_signal_consumes_record_witness :
  asSent sentTrace
  /\ exists w',
       handle samplePlugin Timeout recordedSession 5 failed sentWorld
         = Some w'
       /\ xhrMap w' !! theXhr = None.
Proof.
  split; [sample_asSent|].
  destruct (first_signal_consumes_record samplePlugin Timeout recordedSession
              5 failed sentWorld sentDetails sentTrace)
    as (w' & evs & Hh & Hnone & _);
    [vm_compute; reflexivity | reflexivity | sample_asSent |].
  exists w'. split; assumption.
Defined.

(** C1, as first stated, fails. A 200 response while "record all requests"
    is off and the session is recorded: the handler records the trace and no
    HTTP event, where the statement asks for exactly one HTTP event. *)
Lemma load_2xx_records_no_http_event :
  (exists w',
     handle samplePlugin Load recordedSession 5 (respond 200 "OK") sentWorld
       = Some w'
     /\ httpEvents (recorded w') = [])
  /\ ~ oneHttpEventPerCompletion samplePlugin.
Proof.
  split.
  - eexists. split; [vm_compute; reflexivity|reflexivity].
  - intros Hclaim.
    destruct (Hclaim Load recordedSession 5 (respond 200 "OK") sentWorld
                sentDetails sentTrace)
      as (w' & evs & Hh & _ & Hrec & Hlen & _);
      [vm_compute; reflexivity | reflexivity | sample_asSent |].
    vm_compute in Hh. injection Hh as <-.
    vm_compute in Hrec. subst evs.
    vm_compute in Hlen. discriminate.
Qed.

(** A 429 response: throttle on the root and on the subsegment. *)
Lemma load_status_classification_witness :
  asSent sentTrace
  /\ exists t' s',
       loadTrace (respond 429 "Too Many Requests") 5 sentTrace = Some t'
       /\ subsegments t' = [s']
       /\ rootFlags t' = (Some true, None, None)
       /\ subsegmentFlags s' = (Some true, None, None).
Proof.
  split; [sample_asSent|].
  destruct (load_status_classification samplePlugin recordedSession 5
              (respond 429 "Too Many Requests") sentWorld sentDetails
              sentTrace)
    as (w' & evs & t' & s' & _ & _ & Hout & _ & Hs' & H429 & _ & _ & _ & Heq);
    [vm_compute; reflexivity | reflexivity | sample_asSent |].
  exists t', s'. rewrite Heq, (H429 eq_refl). by repeat split.
Defined.

(** C3, on the code. The sample call is aborted, and then timed out
    instead: in both cases the trace handed to the sink has the cause with
    the name of the signal and [error = true] on its subsegment, and no
    response, but the [error] flag of the trace itself is not set. (The load
    and network-error handlers set each flag on the trace and on the
    subsegment alike.) *)
Lemma abort_timeout_trace_error_unset :
  (exists w' t' s' h',
     handle samplePlugin Abort recordedSession 5 failed sentWorld = Some w'
     /\ traceEvents (recorded w') = [t']
     /\ error t' = None
     /\ subsegments t' = [s']
     /\ seg_error s' = Some true
     /\ seg_cause s' =
          Some {| exceptions := [ {| exc_type := "XMLHttpRequest abort";
                                     exc_message := None |} ] |}
     /\ seg_http s' = Some h' /\ http_response h' = None)
  /\ (exists w' t' s' h',
        handle samplePlugin Timeout recordedSession 5 failed sentWorld
          = Some w'
        /\ traceEvents (recorded w') = [t']
        /\ error t' = None
        /\ subsegments t' = [s']
        /\ seg_error s' = Some true
        /\ seg_cause s' =
             Some {| exceptions := [ {| exc_type := "XMLHttpRequest timeout";
                                        exc_message := None |} ] |}
        /\ seg_http s' = Some h' /\ http_response h' = None).
Proof.
  split; do 4 eexists;
    (split; [vm_compute; reflexivity|]); by repeat split.
Qed.

Lemma abort_timeout_outcome_witness :
  asSent sentTrace
  /\ exists t' s',
       detailsOnErrorTrace "XMLHttpRequest abort" 5 sentTrace = Some t'
       /\ subsegments t' = [s']
       /\ seg_error s' = Some true
       /\ seg_cause s' =
            Some {| exceptions := [ {| exc_type := "XMLHttpRequest abort";
                                       exc_message := None |} ] |}.
Proof.
  split; [sample_asSent|].
  destruct (abort_timeout_outcome samplePlugin Abort recordedSession 5 failed
              sentWorld sentDetails sentTrace)
    as (w' & evs & t' & s' & h' & _ & _ & Hout & _ & Hs' & Herr & Hc & _);
    [by left | vm_compute; reflexivity | reflexivity | sample_asSent |].
  exists t', s'. repeat split; try assumption. by apply Hc.
Defined.

Lemma http_event_emission_policy_witness :
  asSent sentTrace
  /\ exists w' evs e,
       handle samplePlugin Error recordedSession 5 failed sentWorld = Some w'
       /\ recorded w' = recorded sentWorld ++ evs
       /\ httpEvents evs = [e].
Proof.
  split; [sample_asSent|].
  destruct (http_event_emission_policy samplePlugin Error recordedSession 5
              failed sentWorld sentDetails sentTrace)
    as (w' & evs & Hh & Hrec & Hother & _);
    [vm_compute; reflexivity | reflexivity | sample_asSent |].
  destruct Hother as [e He]; [done|].
  by exists w', evs, e.
Defined.

Lemma response_cause_exclusive_witness :
  reachable samplePlugin loadedWorld
  /\ exists s, subsegments loadedTrace = [s]
               /\ hasResponse s = negb (hasCause s).
Proof.
  assert (reachable samplePlugin loadedWorld) as Hreach.
  { apply (run_reachable samplePlugin
             (openAndSend ++ [Fire Load (respond 200 "OK") recordedSession 5])
             emptyWorld); [apply reachable_init|vm_compute; reflexivity]. }
  split; [exact Hreach|].
  apply (proj1 (response_cause_exclusive samplePlugin loadedWorld Hreach)).
  vm_compute. left.
Defined.

Lemma trace_event_gate_witness :
  asSent sentTrace
  /\ exists w' evs,
       handle samplePlugin Load None 5 (respond 200 "OK") sentWorld = Some w'
       /\ recorded w' = recorded sentWorld ++ evs
       /\ traceEvents evs = [].
Proof.
  split; [sample_asSent|].
  destruct (trace_event_gate samplePlugin Load None 5 (respond 200 "OK")
              sentWorld sentDetails sentTrace)
    as (w' & evs & t' & Hh & Hrec & _ & _ & _ & Hnone & _);
    [vm_compute; reflexivity | reflexivity | sample_asSent |].
  exists w', evs. repeat split; try assumption. by apply Hnone.
Defined.

Lemma trace_header_injection_witness :
  exists w',
    sendWrapper samplePlugin recordedSession 0 sampleEntropy theXhr
      (openWrapper samplePlugin theXhr "GET" "https://aws.amazon.com" true
         emptyWorld) = Some w'
    /\ requestHeaders w' =
         [(theXhr,
           ("X-Amzn-Trace-Id",
            "Root=1-0-000000000000000000000000;Parent=0000000000000002;Sampled=1"))].
Proof.
  destruct (trace_header_injection samplePlugin recordedSession 0
              sampleEntropy theXhr
              (openWrapper samplePlugin theXhr "GET" "https://aws.amazon.com"
                 true emptyWorld)
              {| method := "GET"; url := "https://aws.amazon.com";
                 async := true; trace := None |})
    as (w' & hs & Hsend & Hh & Hgate & _ & Hlegacy);
    [vm_compute; reflexivity|].
  exists w'. split; [exact Hsend|].
  rewrite Hh. cbn [app openWrapper requestHeaders].
  assert (hs <> []) as Hne.
  { apply Hgate. repeat split. by eexists. }
  by rewrite (Hlegacy Hne eq_refl).
Defined.

Lemma cause_exception_shape_witness :
  asSent sentTrace
  /\ exists t' s' ex,
       errorTrace failed 5 sentTrace = Some t'
       /\ subsegments t' = [s']
       /\ seg_cause s' = Some {| exceptions := [ex] |}
       /\ exc_type ex = "XMLHttpRequest error"
       /\ exc_message ex = Some "0".
Proof.
  split; [sample_asSent|].
  destruct (cause_exception_shape samplePlugin Error recordedSession 5 failed
              sentWorld sentDetails sentTrace)
    as (w' & evs & t' & s' & ex & _ & _ & Hout & _ & Hs' & Hc & Herr & _);
    [done | vm_compute; reflexivity | reflexivity | sample_asSent |].
  destruct (Herr eq_refl) as (Hty & m & Hm & Hempty & _).
  exists t', s', ex. repeat split; try assumption.
  by rewrite Hm, (Hempty eq_refl).
Defined.

(** ** The further properties on the sample call *)

Lemma lifecycle_correlates_identifiers_witness :
  exists w1 w2 t',
    sendWrapper samplePlugin recordedSession 0 sampleEntropy theXhr
      (openWrapper samplePlugin theXhr "GET" "https://aws.amazon.com" true
         emptyWorld) = Some w1
    /\ handle samplePlugin Load recordedSession 5
         (respond 500 "Internal Server Error") w1 = Some w2
    /\ requestHeaders w2 = [(theXhr, traceHeader samplePlugin sampleEntropy)]
    /\ trace_id t' = "1-0-000000000000000000000000"%string.
Proof.
  destruct (lifecycle_correlates_identifiers samplePlugin recordedSession 0
              sampleEntropy Load recordedSession 5
              (respond 500 "Internal Server Error")
              (openWrapper samplePlugin theXhr "GET" "https://aws.amazon.com"
                 true emptyWorld)
              {| method := "GET"; url := "https://aws.amazon.com";
                 async := true; trace := None |})
    as (w1 & w2 & t' & s' & Hsend & Hh & _ & Hhdr & _ & Htid & _);
    [vm_compute; reflexivity|].
  exists w1, w2, t'. split; [exact Hsend|]. split; [exact Hh|].
  split; [rewrite Hhdr; reflexivity|exact Htid].
Defined.

Lemma filtered_out_call_is_inert_witness :
  run filteringPlugin
    [Open theXhr "POST" "https://cognito-identity.us-west-2.amazonaws.com"
       true;
     Send theXhr recordedSession 0 sampleEntropy;
     Fire Load (respond 200 "OK") recordedSession 5] emptyWorld
  = Some emptyWorld.
Proof.
  apply (filtered_out_call_is_inert filteringPlugin "POST"
           "https://cognito-identity.us-west-2.amazonaws.com" true
           recordedSession 0 sampleEntropy Load (respond 200 "OK")
           recordedSession 5 emptyWorld); reflexivity.
Defined.

Lemma reopened_call_signal_throws_witness :
  handle samplePlugin Load recordedSession 5 (respond 200 "OK")
    (openWrapper samplePlugin theXhr "GET" "https://aws.amazon.com/again"
       true sentWorld) = None.
Proof.
  apply (reopened_call_signal_throws samplePlugin "GET"
           "https://aws.amazon.com/again" true Load (respond 200 "OK")
           recordedSession 5 sentWorld).
  reflexivity.
Defined.

Lemma signal_leaves_other_calls_alone_witness :
  requestHeaders loadedWorld = requestHeaders sentWorld
  /\ listeners loadedWorld = listeners sentWorld
  /\ xhrMap loadedWorld !! theXhr = None.
Proof.
  destruct (signal_leaves_other_calls_alone samplePlugin Load recordedSession
              5 (respond 200 "OK") sentWorld loadedWorld)
    as (_ & Hgone & Hhdr & Hls & _); [vm_compute; reflexivity|].
  by repeat split.
Defined.

Lemma load_response_content_length_witness :
  asSent sentTrace
  /\ exists t' s' h' r,
       traceEvents (recorded loadedWorld) = [t']
       /\ subsegments t' = [s'] /\ seg_http s' = Some h'
       /\ http_response h' = Some r
       /\ resp_status r = 200
       /\ resp_content_length r = Some (Finite false 125).
Proof.
  split; [sample_asSent|].
  destruct (load_response_content_length samplePlugin recordedSession 5
              (respond 200 "OK") sentWorld sentDetails sentTrace)
    as (w' & evs & t' & s' & h' & r & Hh & Hrec & Htr & Hs' & Hh' & Hr
        & Hst & Hcl & _);
    [vm_compute; reflexivity | reflexivity | sample_asSent |].
  exists t', s', h', r.
  assert (w' = loadedWorld) as ->
    by (apply (inj Some); rewrite <- Hh; vm_compute; reflexivity).
  split; [by rewrite Hrec, traceEvents_app, Htr|].
  repeat split; try assumption.
  apply Hcl. exists "125"%string. by repeat split.
Defined.

Lemma network_error_outcome_witness :
  asSent sentTrace
  /\ exists t' s' e,
       traceEvents (recorded failedWorld) = [t']
       /\ subsegments t' = [s']
       /\ rootFlags t' = (None, None, Some true)
       /\ subsegmentFlags s' = (None, None, Some true)
       /\ httpEvents (recorded failedWorld) = [e]
       /\ response e = None.
Proof.
  split; [sample_asSent|].
  destruct (network_error_outcome samplePlugin recordedSession 5 failed
              sentWorld sentDetails sentTrace)
    as (w' & evs & t' & s' & h' & e & Hh & Hrec & Htr & Hs' & Hrf & Hsf
        & _ & _ & He & Hresp & _);
    [vm_compute; reflexivity | reflexivity | sample_asSent |].
  exists t', s', e.
  assert (w' = failedWorld) as ->
    by (apply (inj Some); rewrite <- Hh; vm_compute; reflexivity).
  rewrite Hrec, traceEvents_app, httpEvents_app, Htr, He.
  by repeat split.
Defined.

Lemma abort_timeout_flags_subsegment_only_witness :
  asSent sentTrace
  /\ exists w' evs t' s',
       handle samplePlugin Timeout recordedSession 5 failed sentWorld
         = Some w'
       /\ recorded w' = recorded sentWorld ++ evs
       /\ traceEvents evs = [t']
       /\ subsegments t' = [s']
       /\ rootFlags t' = (None, None, None)
       /\ subsegmentFlags s' = (None, Some true, None).
Proof.
  split; [sample_asSent|].
  destruct (abort_timeout_flags_subsegment_only samplePlugin Timeout
              recordedSession 5 failed sentWorld sentDetails sentTrace)
    as (w' & evs & t' & s' & Hh & Hrec & Htr & Hs' & Hrf & Hsf);
    [by right | vm_compute; reflexivity | reflexivity | sample_asSent |].
  by exists w', evs, t', s'.
Defined.

Lemma sample_reachable l w :
  run samplePlugin l emptyWorld = Some w -> reachable samplePlugin w.
Proof. apply run_reachable, reachable_init. Qed.

Lemma http_events_well_formed_witness :
  exists e,
    httpEvents (recorded failedWorld) = [e]
    /\ version e = "1.0.0"%string
    /\ response e = None
    /\ is_Some (ev_trace_id e).
Proof.
  assert (exists e, httpEvents (recorded failedWorld) = [e]) as [e He]
    by (eexists; vm_compute; reflexivity).
  destruct (http_events_well_formed samplePlugin failedWorld e)
    as (Hv & Hshape & Hon & _).
  - apply (sample_reachable
             (openAndSend ++ [Fire Error failed recordedSession 5])).
    vm_compute; reflexivity.
  - rewrite He. by left.
  - exists e. split; [exact He|]. split; [exact Hv|].
    split; [|by apply Hon].
    vm_compute in He. injection He as <-. reflexivity.
Defined.

Lemma emitted_traces_stamped_witness :
  exists e s,
    end_time loadedTrace = Some e /\ subsegments loadedTrace = [s]
    /\ seg_end_time s = Some e.
Proof.
  apply (emitted_traces_stamped samplePlugin loadedWorld loadedTrace).
  - apply (sample_reachable
             (openAndSend ++ [Fire Load (respond 200 "OK") recordedSession 5])).
    vm_compute; reflexivity.
  - vm_compute. left.
Defined.

Lemma only_allowed_urls_recorded_witness :
  exists r,
    tracedRequest loadedTrace = Some r
    /\ req_traced r = true
    /\ isUrlAllowed (req_url r) (config samplePlugin) = true.
Proof.
  apply (proj2 (only_allowed_urls_recorded samplePlugin loadedWorld
                  (sample_reachable
                     (openAndSend
                      ++ [Fire Load (respond 200 "OK") recordedSession 5])
                     loadedWorld eq_refl))).
  vm_compute. left.
Defined.

Lemma no_tracing_when_disabled_witness :
  traceEvents (recorded syntheticsWorld) = []
  /\ requestHeaders syntheticsWorld = [].
Proof.
  apply (no_tracing_when_disabled syntheticsPlugin syntheticsWorld).
  - left. reflexivity.
  - apply (run_reachable syntheticsPlugin
             (openAndSend ++ [Fire Load (respond 200 "OK") recordedSession 5])
             emptyWorld); [apply reachable_init|vm_compute; reflexivity].
Defined.

Lemma header_names_follow_format_witness :
  "X-Amzn-Trace-Id"%string
  = (if enableW3CTraceId (context samplePlugin)
     then "traceparent" else "X-Amzn-Trace-Id")%string
  /\ isSyntheticsUA samplePlugin = false
  /\ enableXRay (context samplePlugin) = true.
Proof.
  apply (header_names_follow_format samplePlugin sentWorld theXhr
           "X-Amzn-Trace-Id"
           "Root=1-0-000000000000000000000000;Parent=0000000000000002;Sampled=1").
  - apply (sample_reachable openAndSend). vm_compute; reflexivity.
  - vm_compute. left.
Defined.

Lemma sent_call_completion_is_handled_witness :
  exists w',
    dispatch samplePlugin Abort recordedSession 5 failed sentWorld = Some w'
    /\ xhrMap w' !! theXhr = None.
Proof.
  destruct (sent_call_completion_is_handled samplePlugin sentWorld sentDetails
              Abort recordedSession 5 failed)
    as (w' & Hd & Hgone & _).
  - apply (sample_reachable openAndSend). vm_compute; reflexivity.
  - vm_compute; reflexivity.
  - by eexists.
  - by exists w'.
Defined.

(** A run in which a handler throws: the call is opened again before the
    response arrives, the load handler throws on the record without trace,
    and the call is then sent and answered. *)
Example events_bounded_by_sends_sample :
  let l := openAndSend
           ++ [Open theXhr "GET" "https://aws.amazon.com" true;
               Fire Load (respond 200 "OK") recordedSession 4;
               Send theXhr recordedSession 5 sampleEntropy;
               Fire Error failed recordedSession 6] in
  run samplePlugin l emptyWorld = None
  /\ length (httpEvents (recorded (exec samplePlugin l emptyWorld))) = 1%nat
  /\ length (traceEvents (recorded (exec samplePlugin l emptyWorld))) = 1%nat
  /\ length (requestHeaders (exec samplePlugin l emptyWorld)) = 2%nat
  /\ sends l = 2%nat.
Proof. vm_compute. by repeat split. Qed.

End XhrPluginProps.

(* ===================================================================== *)
(** * Properties of the anonymous credentials provider *)
(* ===================================================================== *)

Module BasicAuthenticationProps.

Import BasicAuthentication.

Lemma attempts_app l1 l2 :
  attempts (l1 ++ l2) = (attempts l1 + attempts l2)%nat.
Proof. unfold attempts. by rewrite List.filter_app, length_app. Qed.

Lemma length_snoc {A} (l : list A) (x : A) :
  length (l ++ [x]) = S (length l).
Proof. rewrite length_app. cbn. lia. Qed.

Section Claims.

Context `{Services}.

Variable (config : Config) (credentialStorageKey : string).


(** The loop, unrolled: at most two passes. *)
Lemma provider_unfold s :
  AnonymousCognitoCredentialsProvider config credentialStorageKey s =
  match exchange config credentialStorageKey s with
  | (Resolved c, s1) => (Resolved c, s1)
  | (Rejected _, s1) => exchange config credentialStorageKey s1
  end.
Proof.
  unfold AnonymousCognitoCredentialsProvider, loop, tryCatch, throw.
  destruct (exchange config credentialStorageKey s) as [[c|e1] s1]; [done|].
  by destruct (exchange config credentialStorageKey s1) as [[c|e2] s2].
Qed.

(** One pass of the exchange, by the answers it gets. *)
Lemma exchange_cases s :
  let n := length (log s) in
  match getIdReply n (getIdRequest config) with
  | Rejected e =>
      exchange config credentialStorageKey s
      = (Rejected e, logCall (CallGetId (getIdRequest config)) s)
  | Resolved r =>
      match getOpenIdTokenReply (S n) r with
      | Rejected e =>
          exchange config credentialStorageKey s =
          (Rejected e,
           logCall (CallGetOpenIdToken r)
             (logCall (CallGetId (getIdRequest config)) s))
      | Resolved tok =>
          match assumeRoleWithWebIdentityReply (S (S n))
                  (assumeRoleRequest config tok) with
          | Rejected e =>
              exchange config credentialStorageKey s =
              (Rejected e,
               logCall
                 (CallAssumeRoleWithWebIdentity (assumeRoleRequest config tok))
                 (logCall (CallGetOpenIdToken r)
                    (logCall (CallGetId (getIdRequest config)) s)))
          | Resolved c =>
              exchange config credentialStorageKey s =
              (Resolved c,
               {| credentials := Some c;
                  localStorage :=
                    match setItemError (S (S (S n))) credentialStorageKey
                            (stringify c) with
                    | Some _ => localStorage s
                    | None =>
                        <[credentialStorageKey := stringify c]>
                          (localStorage s)
                    end;
                  log := log s ++ [CallGetId (getIdRequest config)]
                         ++ [CallGetOpenIdToken r]
                         ++ [CallAssumeRoleWithWebIdentity
                               (assumeRoleRequest config tok)]
                         ++ [CallSetItem credentialStorageKey
                               (stringify c)] |})
          end
      end
  end.
Proof.
  cbn zeta.
  unfold BasicAuthentication.exchange, mbind, M_bind, mret, M_ret, getId,
    getOpenIdToken, assumeRoleWithWebIdentity, setCredentials, tryCatch,
    setItem, logCall, getIdRequest, assumeRoleRequest.
  cbn [log credentials localStorage].
  destruct (getIdReply _ _) as [r|e]; [|done].
  rewrite ?length_snoc.
  destruct (getOpenIdTokenReply _ _) as [tok|e]; [|done].
  rewrite ?length_snoc.
  destruct (assumeRoleWithWebIdentityReply _ _) as [c|e]; [|done].
  rewrite ?length_snoc.
  destruct (setItemError _ _ _); cbn; rewrite <- !app_assoc; done.
Qed.

Lemma exchange_rejected s e s1 :
  exchange config credentialStorageKey s = (Rejected e, s1) ->
  credentials s1 = credentials s
  /\ localStorage s1 = localStorage s
  /\ attempts (log s1) = S (attempts (log s)).
Proof.
  intros Hex. pose proof (exchange_cases s) as Hc. cbn zeta in Hc.
  destruct (getIdReply _ _) as [r|e0];
    [destruct (getOpenIdTokenReply _ _) as [tok|e0];
     [destruct (assumeRoleWithWebIdentityReply _ _) as [c|e0]|]|];
    rewrite Hc in Hex; injection Hex as ? <-; try done;
    unfold logCall; cbn [log credentials localStorage];
    rewrite !attempts_app; cbn; (split; [done|split; [done|lia]]).
Qed.

Lemma exchange_resolved s c s1 :
  exchange config credentialStorageKey s = (Resolved c, s1) ->
  credentials s1 = Some c
  /\ attempts (log s1) = S (attempts (log s)).
Proof.
  intros Hex. pose proof (exchange_cases s) as Hc. cbn zeta in Hc.
  destruct (getIdReply _ _) as [r|e0];
    [destruct (getOpenIdTokenReply _ _) as [tok|e0];
     [destruct (assumeRoleWithWebIdentityReply _ _) as [c0|e0]|]|];
    rewrite Hc in Hex; try done.
  injection Hex as <- <-. cbn [log credentials].
  rewrite !attempts_app. cbn. split; [done|lia].
Qed.

(** An exchange is rejected exactly when one of its three steps is. *)
Lemma exchange_rejected_iff s :
  let n := length (log s) in
  (exists e s1, exchange config credentialStorageKey s = (Rejected e, s1))
  <-> (exists e, getIdReply n (getIdRequest config) = Rejected e)
      \/ (exists r e, getIdReply n (getIdRequest config) = Resolved r
                      /\ getOpenIdTokenReply (S n) r = Rejected e)
      \/ (exists r tok e,
            getIdReply n (getIdRequest config) = Resolved r
            /\ getOpenIdTokenReply (S n) r = Resolved tok
            /\ assumeRoleWithWebIdentityReply (S (S n))
                 (assumeRoleRequest config tok) = Rejected e).
Proof.
  cbn zeta. pose proof (exchange_cases s) as Hc. cbn zeta in Hc.
  destruct (getIdReply _ _) as [r|e0] eqn:Hid.
  - destruct (getOpenIdTokenReply _ _) as [tok|e0] eqn:Htok.
    + destruct (assumeRoleWithWebIdentityReply _ _) as [c|e0] eqn:Hsts;
        rewrite Hc; split.
      * by intros (? & ? & ?).
      * intros [(e & He)|[(r' & e & Hr & He)|(r' & tok' & e & Hr & Ht & He)]];
          simplify_eq; congruence.
      * intros _. right; right. by exists r, tok, e0.
      * intros _. by eauto.
    + rewrite Hc; split; [|by eauto].
      intros _. right; left. by exists r, e0.
  - rewrite Hc; split; [|by eauto].
    intros _. left. by exists e0.
Qed.

(** The provider in terms of its passes: a pass that returns ends it, a
    pass that throws is followed by one more, whose outcome is final. *)
Lemma provider_follows_exchanges s :
  (forall c s1,
     exchange config credentialStorageKey s = (Resolved c, s1) ->
     AnonymousCognitoCredentialsProvider config credentialStorageKey s
       = (Resolved c, s1)
     /\ attempts (log s1) = (1 + attempts (log s))%nat)
  /\ (forall e1 s1 o s2,
        exchange config credentialStorageKey s = (Rejected e1, s1) ->
        exchange config credentialStorageKey s1 = (o, s2) ->
        AnonymousCognitoCredentialsProvider config credentialStorageKey s
          = (o, s2)
        /\ attempts (log s2) = (2 + attempts (log s))%nat)
  /\ (forall e1 s1 e2 s2,
        exchange config credentialStorageKey s = (Rejected e1, s1) ->
        exchange config credentialStorageKey s1 = (Rejected e2, s2) ->
        AnonymousCognitoCredentialsProvider config credentialStorageKey s
          = (Rejected e2, s2)
        /\ attempts (log s2) = (2 + attempts (log s))%nat
        /\ credentials s2 = credentials s
        /\ localStorage s2 = localStorage s).
Proof.
  split; [|split].
  - intros c s1 Hex. rewrite provider_unfold, Hex.
    split; [done|]. by apply exchange_resolved in Hex as [_ ->].
  - intros e1 s1 o s2 Hex1 Hex2. rewrite provider_unfold, Hex1.
    split; [done|].
    apply exchange_rejected in Hex1 as (_ & _ & Ha1).
    destruct o as [c|e2].
    + apply exchange_resolved in Hex2 as [_ ->]. lia.
    + apply exchange_rejected in Hex2 as (_ & _ & ->). lia.
  - intros e1 s1 e2 s2 Hex1 Hex2. rewrite provider_unfold, Hex1.
    split; [done|].
    apply exchange_rejected in Hex1 as (Hc1 & Hl1 & Ha1).
    apply exchange_rejected in Hex2 as (Hc2 & Hl2 & Ha2).
    split; [lia|]. split; congruence.
Qed.

(** A pass whose first rejected step is rejected with [e] throws [e],
    having made the calls up to that step and written nothing. *)
Lemma exchange_of_rejected s e l :
  exchangeRejected config (length (log s)) e l ->
  exchange config credentialStorageKey s =
    (Rejected e,
     {| credentials := credentials s; localStorage := localStorage s;
        log := log s ++ l |}).
Proof.
  intros Hrej. pose proof (exchange_cases s) as Hc. cbn zeta in Hc.
  destruct Hrej as [(Hid & ->)|[(r & Hid & Htok & ->)
                               |(r & tok & Hid & Htok & Hsts & ->)]].
  - rewrite Hid in Hc. by rewrite Hc.
  - rewrite Hid, Htok in Hc. rewrite Hc. unfold logCall. cbn.
    by rewrite <- app_assoc.
  - rewrite Hid, Htok, Hsts in Hc. rewrite Hc. unfold logCall. cbn.
    by rewrite <- !app_assoc.
Qed.

(** A pass whose three steps resolve returns the credentials of the third,
    holds them in memory and has tried the write to local storage. *)
Lemma exchange_of_resolved s c l :
  exchangeResolved config credentialStorageKey (length (log s)) c l ->
  exists ls,
    exchange config credentialStorageKey s =
      (Resolved c,
       {| credentials := Some c; localStorage := ls; log := log s ++ l |})
    /\ (ls = localStorage s
        \/ ls = <[credentialStorageKey := stringify c]> (localStorage s)).
Proof.
  intros (r & tok & Hid & Htok & Hsts & ->).
  pose proof (exchange_cases s) as Hc. cbn zeta in Hc.
  rewrite Hid, Htok, Hsts in Hc. rewrite Hc.
  eexists. split; [reflexivity|].
  destruct (setItemError _ _ _); by eauto.
Qed.

(** C5. The provider runs the three-step exchange: get-id, then
    get-open-id-token on its answer, then assume-role-with-web-identity on
    the token. When the three steps resolve, that one exchange is all. When
    a step is rejected, whichever of the three, the whole exchange is run
    once more, from get-id: if it resolves the provider returns its
    credentials; if a step is rejected again, that error is thrown to the
    caller, the calls made are exactly those of the two exchanges (no third
    one is started), and neither [this.credentials] nor local storage has
    been written. *)
Theorem exchange_retried_once s :
  let n := length (log s) in
  (forall c l,
     exchangeResolved config credentialStorageKey n c l ->
     exists s',
       AnonymousCognitoCredentialsProvider config credentialStorageKey s
         = (Resolved c, s')
       /\ log s' = log s ++ l
       /\ credentials s' = Some c)
  /\ (forall e1 l1,
        exchangeRejected config n e1 l1 ->
        (forall c l2,
           exchangeResolved config credentialStorageKey
             (n + length l1) c l2 ->
           exists s',
             AnonymousCognitoCredentialsProvider config credentialStorageKey s
               = (Resolved c, s')
             /\ log s' = log s ++ l1 ++ l2
             /\ credentials s' = Some c)
        /\ (forall e2 l2,
              exchangeRejected config (n + length l1) e2 l2 ->
              exists s',
                AnonymousCognitoCredentialsProvider config
                  credentialStorageKey s = (Rejected e2, s')
                /\ log s' = log s ++ l1 ++ l2
                /\ attempts (l1 ++ l2) = 2%nat
                /\ credentials s' = credentials s
                /\ localStorage s' = localStorage s)).
Proof.
  cbn zeta. split.
  - intros c l Hres.
    destruct (exchange_of_resolved s c l Hres) as (ls & Hex & _).
    eexists. rewrite provider_unfold, Hex. by repeat split.
  - intros e1 l1 Hrej1.
    pose proof (exchange_of_rejected s e1 l1 Hrej1) as Hex1.
    set (s1 := {| credentials := credentials s;
                  localStorage := localStorage s;
                  log := log s ++ l1 |}) in *.
    assert (length (log s1) = (length (log s) + length l1)%nat) as Hlen
      by (cbn; apply length_app).
    split.
    + intros c l2 Hres. rewrite <- Hlen in Hres.
      destruct (exchange_of_resolved s1 c l2 Hres) as (ls & Hex2 & _).
      eexists. rewrite provider_unfold, Hex1, Hex2. cbn.
      by rewrite <- app_assoc.
    + intros e2 l2 Hrej2.
      assert (attempts l1 = 1%nat /\ attempts l2 = 1%nat) as [Ha1 Ha2].
      { split.
        - by destruct Hrej1 as [(_ & ->)|[(? & _ & _ & ->)
                                         |(? & ? & _ & _ & _ & ->)]].
        - by destruct Hrej2 as [(_ & ->)|[(? & _ & _ & ->)
                                         |(? & ? & _ & _ & _ & ->)]]. }
      rewrite <- Hlen in Hrej2.
      pose proof (exchange_of_rejected s1 e2 l2 Hrej2) as Hex2.
      eexists. rewrite provider_unfold, Hex1, Hex2. cbn.
      rewrite <- app_assoc, attempts_app, Ha1, Ha2. by repeat split.
Qed.

(** C9. When the three steps of an exchange succeed, the credentials are
    stored in [this.credentials], and then written to local storage; if that
    write throws, the error is swallowed: the provider still returns the new
    credentials, [this.credentials] holds them, and local storage is as it
    was. *)
Theorem storage_failure_swallowed s r tok c :
  getIdReply (length (log s)) (getIdRequest config) = Resolved r ->
  getOpenIdTokenReply (S (length (log s))) r = Resolved tok ->
  assumeRoleWithWebIdentityReply (S (S (length (log s))))
    (assumeRoleRequest config tok) = Resolved c ->
  exists s',
    AnonymousCognitoCredentialsProvider config credentialStorageKey s
      = (Resolved c, s')
    /\ credentials s' = Some c
    /\ log s' = log s ++ [CallGetId (getIdRequest config);
                          CallGetOpenIdToken r;
                          CallAssumeRoleWithWebIdentity
                            (assumeRoleRequest config tok);
                          CallSetItem credentialStorageKey (stringify c)]
    /\ (forall e,
          setItemError (S (S (S (length (log s))))) credentialStorageKey
            (stringify c) = Some e ->
          localStorage s' = localStorage s)
    /\ (setItemError (S (S (S (length (log s))))) credentialStorageKey
          (stringify c) = None ->
        localStorage s' =
          <[credentialStorageKey := stringify c]> (localStorage s)).
Proof.
  intros Hid Htok Hsts.
  pose proof (exchange_cases s) as Hc. cbn zeta in Hc.
  rewrite Hid, Htok, Hsts in Hc.
  eexists. rewrite provider_unfold, Hc.
  split; [reflexivity|]. cbn.
  split; [done|]. split; [done|].
  split; [by intros e ->|by intros ->].
Qed.

End Claims.

(** ** Further properties of the provider *)

Section Provider.

Context `{Services}.

Variable (config : Config) (credentialStorageKey : string).

(** One exchange, whatever its outcome: the calls it makes, and what it
    leaves in memory and in local storage. *)
Lemma exchange_effects s o s1 :
  exchange config credentialStorageKey s = (o, s1) ->
  exists l,
    log s1 = log s ++ l
    /\ isExchange l = true
    /\ attempts l = 1%nat
    /\ (forall k, k <> credentialStorageKey ->
          localStorage s1 !! k = localStorage s !! k)
    /\ match o with
       | Resolved c =>
           credentials s1 = Some c
           /\ setItems l = [(credentialStorageKey, stringify c)]
           /\ (localStorage s1 = localStorage s
               \/ localStorage s1 =
                    <[credentialStorageKey := stringify c]> (localStorage s))
       | Rejected _ =>
           credentials s1 = credentials s
           /\ localStorage s1 = localStorage s
           /\ setItems l = []
       end.
Proof.
  intros Hex. pose proof (exchange_cases config credentialStorageKey s) as Hc.
  cbn zeta in Hc.
  destruct (getIdReply _ _) as [r|e0];
    [destruct (getOpenIdTokenReply _ _) as [tok|e0];
     [destruct (assumeRoleWithWebIdentityReply _ _) as [c|e0]|]|];
    rewrite Hc in Hex; injection Hex as <- <-;
    unfold logCall; cbn [log credentials localStorage];
    rewrite <- ?app_assoc; eexists; (split; [reflexivity|]); cbn;
    (split; [reflexivity|]); (split; [reflexivity|]); try by repeat split.
  destruct (setItemError _ _ _); (split; [|by eauto]).
  - done.
  - intros k Hk. by rewrite lookup_insert_ne.
Qed.

Lemma provider_cases s o s' :
  AnonymousCognitoCredentialsProvider config credentialStorageKey s = (o, s')
  ->
  exchange config credentialStorageKey s = (o, s') /\ (exists c, o = Resolved c)
  \/ exists e1 s1,
       exchange config credentialStorageKey s = (Rejected e1, s1)
       /\ exchange config credentialStorageKey s1 = (o, s').
Proof.
  rewrite provider_unfold.
  destruct (exchange config credentialStorageKey s) as [[c|e1] s1] eqn:Hex.
  - intros [= <- <-]. left. by eauto.
  - intros Hex2. right. by eauto.
Qed.

Lemma isExchange_length l :
  isExchange l = true ->
  (1 <= length l <= 4)%nat /\ (setItems l = [] -> (length l <= 3)%nat).
Proof.
  destruct l as [|[] [|[] [|[] [|[] [|]]]]]; try done; cbn; intros _;
    (split; [lia|]); try done; lia.
Qed.

Lemma setItems_app l1 l2 : setItems (l1 ++ l2) = setItems l1 ++ setItems l2.
Proof. apply omap_app. Qed.

(** X15. Whatever the services answer, one acquisition starts one exchange
    or two, never more, and makes between one and seven calls in all; what
    it did is appended to what was done before. *)
Theorem provider_attempts_bounded s o s' :
  AnonymousCognitoCredentialsProvider config credentialStorageKey s = (o, s')
  ->
  exists l,
    log s' = log s ++ l
    /\ (1 <= attempts l <= 2)%nat
    /\ (1 <= length l <= 7)%nat.
Proof.
  intros Hp.
  destruct (provider_cases s o s' Hp) as [[Hex _]|(e1 & s1 & Hex1 & Hex2)].
  - destruct (exchange_effects s o s' Hex) as (l & Hl & Hshape & Ha & _).
    exists l. split; [exact Hl|]. rewrite Ha.
    destruct (isExchange_length l Hshape) as [? _]. lia.
  - destruct (exchange_effects s _ s1 Hex1)
      as (l1 & Hl1 & Hs1 & Ha1 & _ & _ & _ & Hset1).
    destruct (exchange_effects s1 o s' Hex2) as (l2 & Hl2 & Hs2 & Ha2 & _).
    exists (l1 ++ l2). rewrite Hl2, Hl1, <- app_assoc.
    split; [reflexivity|].
    rewrite attempts_app, Ha1, Ha2, length_app.
    destruct (isExchange_length l1 Hs1) as [? Hle].
    destruct (isExchange_length l2 Hs2) as [? _].
    specialize (Hle Hset1). lia.
Qed.

(** X16. When an acquisition returns credentials, they are the ones held in
    [this.credentials] afterwards, whatever was held before; the write to
    local storage was tried once, under the storage key and with the
    serialised credentials, and local storage holds that value or is
    unchanged. *)
Theorem provider_resolved_post s c s' :
  AnonymousCognitoCredentialsProvider config credentialStorageKey s
    = (Resolved c, s') ->
  credentials s' = Some c
  /\ (exists l, log s' = log s ++ l
                /\ setItems l = [(credentialStorageKey, stringify c)])
  /\ (localStorage s' = localStorage s
      \/ localStorage s' =
           <[credentialStorageKey := stringify c]> (localStorage s)).
Proof.
  intros Hp.
  destruct (provider_cases s _ s' Hp) as [[Hex _]|(e1 & s1 & Hex1 & Hex2)].
  - destruct (exchange_effects s _ s' Hex)
      as (l & Hl & _ & _ & _ & Hc & Hset & Hls).
    split; [exact Hc|]. split; [by exists l|exact Hls].
  - destruct (exchange_effects s _ s1 Hex1)
      as (l1 & Hl1 & _ & _ & _ & _ & Hls1 & Hset1).
    destruct (exchange_effects s1 _ s' Hex2)
      as (l2 & Hl2 & _ & _ & _ & Hc & Hset2 & Hls2).
    split; [exact Hc|]. split.
    + exists (l1 ++ l2). rewrite Hl2, Hl1, <- app_assoc.
      split; [reflexivity|]. by rewrite setItems_app, Hset1, Hset2.
    + by rewrite <- Hls1.
Qed.

(** X17. When an acquisition fails, two exchanges were started, no write to
    local storage was tried, and [this.credentials] and local storage are
    exactly as they were: credentials obtained earlier stay in place. *)
Theorem provider_rejected_post s e s' :
  AnonymousCognitoCredentialsProvider config credentialStorageKey s
    = (Rejected e, s') ->
  credentials s' = credentials s
  /\ localStorage s' = localStorage s
  /\ exists l, log s' = log s ++ l
               /\ attempts l = 2%nat /\ setItems l = [].
Proof.
  intros Hp.
  destruct (provider_cases s _ s' Hp)
    as [[_ [c Hc]]|(e1 & s1 & Hex1 & Hex2)]; [done|].
  destruct (exchange_effects s _ s1 Hex1)
    as (l1 & Hl1 & _ & Ha1 & _ & Hc1 & Hls1 & Hset1).
  destruct (exchange_effects s1 _ s' Hex2)
    as (l2 & Hl2 & _ & Ha2 & _ & Hc2 & Hls2 & Hset2).
  split; [congruence|]. split; [congruence|].
  exists (l1 ++ l2). rewrite Hl2, Hl1, <- app_assoc.
  split; [reflexivity|].
  by rewrite attempts_app, Ha1, Ha2, setItems_app, Hset1, Hset2.
Qed.

(** X18. Whatever the outcome, an acquisition writes to local storage under
    its storage key only: every other key keeps its value. *)
Theorem provider_storage_frame s o s' k :
  AnonymousCognitoCredentialsProvider config credentialStorageKey s = (o, s')
  ->
  k <> credentialStorageKey ->
  localStorage s' !! k = localStorage s !! k.
Proof.
  intros Hp Hk.
  destruct (provider_cases s o s' Hp) as [[Hex _]|(e1 & s1 & Hex1 & Hex2)].
  - destruct (exchange_effects s o s' Hex) as (l & _ & _ & _ & Hfr & _).
    by apply Hfr.
  - destruct (exchange_effects s _ s1 Hex1) as (l1 & _ & _ & _ & Hfr1 & _).
    destruct (exchange_effects s1 o s' Hex2) as (l2 & _ & _ & _ & Hfr2 & _).
    rewrite Hfr2 by done. by apply Hfr1.
Qed.

(** X19. The calls of an acquisition follow the protocol: they are the
    calls of one exchange, or of a first exchange that stopped before
    writing to local storage followed by those of a second one; within an
    exchange the order is get-id, get-open-id-token, assume-role, set-item,
    up to the step at which the exchange stopped. *)
Theorem provider_call_protocol s o s' :
  AnonymousCognitoCredentialsProvider config credentialStorageKey s = (o, s')
  ->
  exists l1 l2,
    log s' = log s ++ l1 ++ l2
    /\ isExchange l1 = true
    /\ (l2 = [] \/ (isExchange l2 = true /\ setItems l1 = [])).
Proof.
  intros Hp.
  destruct (provider_cases s o s' Hp) as [[Hex _]|(e1 & s1 & Hex1 & Hex2)].
  - destruct (exchange_effects s o s' Hex) as (l & Hl & Hshape & _).
    exists l, []. rewrite app_nil_r. by eauto.
  - destruct (exchange_effects s _ s1 Hex1)
      as (l1 & Hl1 & Hs1 & _ & _ & _ & _ & Hset1).
    destruct (exchange_effects s1 o s' Hex2) as (l2 & Hl2 & Hs2 & _).
    exists l1, l2. rewrite Hl2, Hl1, <- app_assoc. by eauto.
Qed.

End Provider.

(** *** The constructor *)

Lemma beforeColon_prefix s :
  exists rest,
    s = beforeColon s +:+ rest
    /\ (rest = EmptyString \/ exists r, rest = String ":" r).
Proof.
  induction s as [|c s IH].
  - exists EmptyString. by eauto.
  - cbn. destruct (Ascii.eqb_spec c ":") as [->|Hne].
    + exists (String ":" s). by eauto.
    + destruct IH as (rest & Heq & Hrest). exists rest.
      split; [|exact Hrest].
      change (String c s = String c (beforeColon s +:+ rest)).
      by f_equal.
Qed.

Lemma beforeColon_no_colon s i :
  String.get i (beforeColon s) <> Some ":"%char.
Proof.
  revert i. induction s as [|c s IH]; intros i; [by destruct i|].
  cbn. destruct (Ascii.eqb_spec c ":") as [->|Hne]; [by destruct i|].
  destruct i as [|i]; cbn; [congruence|apply IH].
Qed.

(** X20. The region handed to the security token service is the part of
    the identity pool id before its first colon, and the whole id when it
    has no colon; it never contains a colon. Without a pool id the
    constructor throws. *)
Theorem stsRegion_before_colon :
  stsRegion None = None
  /\ forall identityPoolId,
       exists region rest,
         stsRegion (Some identityPoolId) = Some region
         /\ identityPoolId = region +:+ rest
         /\ (rest = EmptyString \/ exists r, rest = String ":" r)
         /\ forall i, String.get i region <> Some ":"%char.
Proof.
  split; [reflexivity|]. intros identityPoolId.
  destruct (beforeColon_prefix identityPoolId) as (rest & Heq & Hrest).
  exists (beforeColon identityPoolId), rest.
  split; [reflexivity|]. split; [exact Heq|]. split; [exact Hrest|].
  apply beforeColon_no_colon.
Qed.

Example stsRegion_sample :
  stsRegion (Some "us-west-2:a1b2c3"%string) = Some "us-west-2"%string.
Proof. reflexivity. Qed.

(** ** The properties on the sample services *)

Import Scenario.

(** The security token service rejects the third step, twice. *)
Lemma exchange_retried_once_witness :
  exists s',
    AnonymousCognitoCredentialsProvider sampleAuthConfig sampleKey initialState
      = (Rejected "AccessDenied", s')
    /\ length (log s') = 6%nat
    /\ attempts (log s') = 2%nat
    /\ credentials s' = None
    /\ localStorage s' = ∅.
Proof.
  destruct (proj2 (exchange_retried_once sampleAuthConfig sampleKey
                     initialState)
              "AccessDenied"
              [CallGetId (getIdRequest sampleAuthConfig);
               CallGetOpenIdToken {| IdentityId := "id" |};
               CallAssumeRoleWithWebIdentity
                 (assumeRoleRequest sampleAuthConfig {| Token := "jwt" |})])
    as [_ Hrej].
  { right; right. exists {| IdentityId := "id" |}, {| Token := "jwt" |}.
    by repeat split. }
  destruct (Hrej "AccessDenied"
              [CallGetId (getIdRequest sampleAuthConfig);
               CallGetOpenIdToken {| IdentityId := "id" |};
               CallAssumeRoleWithWebIdentity
                 (assumeRoleRequest sampleAuthConfig {| Token := "jwt" |})])
    as (s' & Hp & Hlog & Ha & Hc & Hls).
  { right; right. exists {| IdentityId := "id" |}, {| Token := "jwt" |}.
    by repeat split. }
  exists s'. split; [exact Hp|]. rewrite Hlog.
  split; [reflexivity|]. split; [exact Ha|]. split; [exact Hc|exact Hls].
Defined.

Lemma storage_failure_swallowed_witness :
  exists s',
    @AnonymousCognitoCredentialsProvider fullStorageServices sampleAuthConfig
      sampleKey initialState = (Resolved sampleCredentials, s')
    /\ credentials s' = Some sampleCredentials
    /\ localStorage s' = ∅.
Proof.
  destruct (@storage_failure_swallowed fullStorageServices sampleAuthConfig
              sampleKey initialState {| IdentityId := "id" |}
              {| Token := "jwt" |} sampleCredentials)
    as (s' & Hp & Hc & _ & Hfail & _); [reflexivity..|].
  exists s'. repeat split; try assumption.
  exact (Hfail "QuotaExceededError" eq_refl).
Defined.

(** ** The further properties on the sample services *)

Lemma provider_attempts_bounded_witness :
  exists l,
    log afterSecondFailure = log initialState ++ l
    /\ (1 <= attempts l <= 2)%nat
    /\ (1 <= length l <= 7)%nat.
Proof.
  apply (provider_attempts_bounded sampleAuthConfig sampleKey initialState
           (Rejected "AccessDenied") afterSecondFailure).
  reflexivity.
Defined.

Lemma provider_resolved_post_witness :
  credentials afterAcquisition = Some sampleCredentials
  /\ (localStorage afterAcquisition = localStorage initialState
      \/ localStorage afterAcquisition =
           <[sampleKey := "AKIA"%string]> (localStorage initialState)).
Proof.
  destruct (@provider_resolved_post fullStorageServices sampleAuthConfig
              sampleKey initialState sampleCredentials afterAcquisition)
    as (Hc & _ & Hls); [reflexivity|].
  split; [exact Hc|exact Hls].
Defined.

Lemma provider_rejected_post_witness :
  credentials afterSecondFailure = None
  /\ localStorage afterSecondFailure = ∅
  /\ exists l, log afterSecondFailure = l
               /\ attempts l = 2%nat /\ setItems l = [].
Proof.
  destruct (provider_rejected_post sampleAuthConfig sampleKey initialState
              "AccessDenied" afterSecondFailure)
    as (Hc & Hls & l & Hl & Ha & Hset); [reflexivity|].
  split; [exact Hc|]. split; [exact Hls|]. by exists l.
Defined.

Lemma provider_storage_frame_witness :
  localStorage afterAcquisition !! "cwr_u"%string
  = localStorage initialState !! "cwr_u"%string.
Proof.
  apply (@provider_storage_frame fullStorageServices sampleAuthConfig
           sampleKey initialState (Resolved sampleCredentials)
           afterAcquisition "cwr_u"); [reflexivity|done].
Defined.

Lemma provider_call_protocol_witness :
  exists l1 l2,
    log afterSecondFailure = log initialState ++ l1 ++ l2
    /\ isExchange l1 = true
    /\ (l2 = [] \/ (isExchange l2 = true /\ setItems l1 = [])).
Proof.
  apply (provider_call_protocol sampleAuthConfig sampleKey initialState
           (Rejected "AccessDenied") afterSecondFailure).
  reflexivity.
Defined.

End BasicAuthenticationProps.
